(** * The multi-node launcher front end: [dragon/launcher/dragon_multi_fe.py]

    A shallow embedding of [main], the resilient orchestration loop of the
    launcher front end, and the properties of its retry/abort logic.

    The loop talks to one external collaborator, [LauncherFrontEnd], whose
    code lives in another module.  It is modelled as an interface: a record
    of methods acting on an abstract [World], so that every theorem below
    holds for every behaviour the collaborator may have.  Python's control
    flow ([with], [try]/[except]/[else], [return] inside a loop, unbound
    locals, [None]) is modelled explicitly, and so are the subscripts of
    [args_map], a dict that may lack a key. *)

From stdpp Require Import base numbers list strings gmap.

Local Open Scope Z_scope.

(** ** Python exceptions *)

(** The exceptions [main] can see.  The first four are raised by the
    interpreter while it executes [main] itself: the read of an unbound
    local, an attribute that is not there, a subscript with a missing key,
    an operator applied to the wrong type.  Everything a collaborator
    raises carries an opaque tag.  [except Exception] catches every class
    except those deriving from [BaseException] only ([KeyboardInterrupt],
    [SystemExit], [GeneratorExit]). *)
Inductive PyExc : Type :=
| UnboundLocalError (name : string)
| AttributeError (type_name attr : string)
| KeyError (key : string)
| TypeError (operator : string)
| OtherException (tag : nat)
| OtherBaseException (tag : nat).

Definition is_Exception (e : PyExc) : bool :=
  match e with
  | OtherBaseException _ => false
  | _ => true
  end.

(** Result of calling a collaborator. *)
Inductive PyResult (A : Type) : Type :=
| Returns (a : A)
| Raises (e : PyExc).
Arguments Returns {A} a.
Arguments Raises {A} e.

(** How a block of statements of [main] completes. *)
Inductive Completion (A : Type) : Type :=
| Normal (a : A)
| Raise (e : PyExc)
| Return (code : Z).
Arguments Normal {A} a.
Arguments Raise {A} e.
Arguments Return {A} code.

(** ** Data model *)

(** Modelled from the spec: [NodeDescriptor.State] is declared in
    [infrastructure/node_desc.py].  It is an enumeration with the members
    [ACTIVE] and [IDLE] and further members (failed, unreachable, ...)
    that are not counted as healthy. *)
Inductive State : Type :=
| ACTIVE
| IDLE
| OtherState (tag : nat).

Definition State_eqb (a b : State) : bool :=
  match a, b with
  | ACTIVE, ACTIVE => true
  | IDLE, IDLE => true
  | OtherState m, OtherState n => Nat.eqb m n
  | _, _ => false
  end.

(** Modelled from the spec: [NodeDescriptor], declared in the same file;
    [main] reads its [state] only. *)
Record NodeDescriptor : Type := { state : State }.

(** The network configuration is a Python dict from node index to node
    descriptor; the front end has the reserved index ['f']. *)
Abbreviation NetworkConfiguration := (gmap string NodeDescriptor).

(** Dicts are mutable objects: the variable [net_conf] holds [None] or a
    reference to a dict, whose content lives in the world and may be
    changed by the collaborator between two reads. *)
Definition ref := nat.

Inductive PyVal : Type :=
| PyNone
| PyDict (r : ref).
Arguments PyDict r%_nat.

(** ** [args_map] *)

(** [args_map] is a dict.  What [main] can make out of a value it holds:
    [None], a boolean, an integer, or another object (a string, a list,
    the logging map), of which [main] sees the truth value only.  Numbers
    other than integers are left out. *)
Inductive ArgVal : Type :=
| ArgNone
| ArgBool (b : bool)
| ArgInt (n : Z)
| ArgObject (truth : bool).

(** The truth value of [v], as [if v:] takes it (line 58). *)
Definition truthy (v : ArgVal) : bool :=
  match v with
  | ArgNone => false
  | ArgBool b => b
  | ArgInt n => negb (n =? 0)
  | ArgObject truth => truth
  end.

(** [v - 1] (line 62): booleans are integers, and [None] and the other
    objects do not support the operator. *)
Definition minus_one (v : ArgVal) : PyResult Z :=
  match v with
  | ArgBool b => Returns (Z.b2z b - 1)
  | ArgInt n => Returns (n - 1)
  | ArgNone | ArgObject _ => Raises (TypeError "-")
  end.

(** [v is None] (line 31). *)
Definition is_None (v : ArgVal) : bool :=
  match v with
  | ArgNone => true
  | _ => false
  end.

(** [main] is written against any value that reads as a dict; its items
    come in the order of the dict. *)
Class ArgsMap (A : Type) : Type := args_items : A -> list (string * ArgVal).

(** [args_map[key]]; [None] when the key is missing. *)
Definition subscript {A : Type} `{ArgsMap A} (args_map : A) (key : string)
  : option ArgVal :=
  snd <$> List.find (fun item => String.eqb (fst item) key) (args_items args_map).

(** A plain dict. *)
Definition Dict : Type := list (string * ArgVal).

Global Instance Dict_ArgsMap : ArgsMap Dict := fun d => d.

(** Modelled from the spec: the [args_map] that [get_args], declared in
    [launcher/launchargs.py], builds from the command line.  The spec
    (section 6, policy input) gives it as a configuration record in which
    every option is set, [exhaust_resources] a boolean and [node_count] an
    integer, beside the logging map; the options that [main] only hands on
    to the collaborators are left out.  On such a record none of the
    subscripts of lines 21, 58 and 62 fails. *)
Record Args : Type := {
  exhaust_resources : bool;
  node_count : Z
}.

(** The record read as a dict: the logging map, then the two options. *)
Global Instance Args_ArgsMap : ArgsMap Args := fun a =>
  [("log_device_level_map"%string, ArgObject true);
   ("exhaust_resources"%string, ArgBool (exhaust_resources a));
   ("node_count"%string, ArgInt (node_count a))].

(** ** The collaborator interface *)

(** Modelled from the spec: [LauncherFrontEnd] is declared in
    [launcher/frontend.py].  It is a context manager whose [__enter__]
    yields the session itself, with the three phase operations, a readable
    [resilient] attribute and a teardown [__exit__] that receives the
    exception in flight (if any) and answers whether to suppress it.
    Every method may change the world and may raise. *)
Record LauncherFrontEnd (World : Type) : Type := {
  fe_id : nat;
  resilient : bool;
  fe_enter : World -> PyResult unit * World;
  run_startup : PyVal -> World -> PyResult PyVal * World;
  run_app : World -> PyResult PyVal * World;
  run_msg_server : World -> PyResult PyVal * World;
  fe_exit : option PyExc -> World -> PyResult bool * World
}.
Arguments fe_id {World} _.
Arguments resilient {World} _.
Arguments fe_enter {World} _ _.
Arguments run_startup {World} _ _ _.
Arguments run_app {World} _ _.
Arguments run_msg_server {World} _ _.
Arguments fe_exit {World} _ _ _.

(** Everything [main] imports: the session constructor, the content of a
    dict object, the command-line arguments (an [args_map] of type [A]) and
    the two exit statuses (declared in [launcher/frontend.py]). *)
Class Collaborators (A World : Type) : Type := {
  new_LauncherFrontEnd : A -> World -> PyResult (LauncherFrontEnd World) * World;
  dict_content : World -> ref -> NetworkConfiguration;
  get_cli_args : A;
  LAUNCHER_FAIL_EXIT : Z;
  LAUNCHER_SUCCESS_EXIT : Z
}.

(** ** Observable events *)

Inductive LogRecord : Type :=
| LogStart
| LogHostId
| LogArg (key : string)
| LogException (err : PyExc)
| LogAvailNodes (avail_nodes : nat)
| LogExiting.

(** One event per collaborator call, with its arguments and its outcome. *)
Inductive Event : Type :=
| EvSetupLogging
| EvSetHostId
| EvLog (r : LogRecord)
| EvPrint (msg : string)
| EvConstruct (res : PyResult nat)
| EvEnter (fe : nat) (res : PyResult unit)
| EvRunStartup (fe : nat) (hint : PyVal) (res : PyResult PyVal)
| EvRunApp (fe : nat) (res : PyResult PyVal)
| EvRunMsgServer (fe : nat) (res : PyResult PyVal)
| EvExit (fe : nat) (exc : option PyExc) (res : PyResult bool).

(** ** The node health count (lines 53-54) *)

Definition healthy_states : list State := [ACTIVE; IDLE].

Definition state_in (s : State) (l : list State) : bool :=
  existsb (State_eqb s) l.

(** [len([idx for idx, node in net_conf.items()
          if node.state in [ACTIVE, IDLE] and idx != 'f'])] *)
Definition count_avail_nodes (items : list (string * NodeDescriptor)) : nat :=
  length (List.filter
            (fun '(idx, node) =>
               state_in (state node) healthy_states && negb (String.eqb idx "f"))
            items).

Definition avail_nodes_of (nc : NetworkConfiguration) : nat :=
  count_avail_nodes (map_to_list nc).

(** ** The local variables of [main] and its statement monad *)

(** [fe_server] is [None] while the name is still unbound. *)
Record Frame (World : Type) : Type := {
  execution_complete : bool;
  net_conf : PyVal;
  fe_server : option (LauncherFrontEnd World);
  world : World
}.
Arguments execution_complete {World} _.
Arguments net_conf {World} _.
Arguments fe_server {World} _.
Arguments world {World} _.

Section Main.
Context {A World : Type} {HA : ArgsMap A} {H : Collaborators A World}.

(** A statement reads and writes the frame, emits events and completes. *)
Definition M (A : Type) : Type :=
  Frame World -> Completion A * Frame World * list Event.

Definition ret {A} (a : A) : M A := fun fr => (Normal a, fr, []).

Definition bind {A B} (m : M A) (k : A -> M B) : M B :=
  fun fr =>
    let '(c, fr1, ev1) := m fr in
    match c with
    | Normal a => let '(c2, fr2, ev2) := k a fr1 in (c2, fr2, ev1 ++ ev2)
    | Raise e => (Raise e, fr1, ev1)
    | Return code => (Return code, fr1, ev1)
    end.

Definition py_return {A} (code : Z) : M A := fun fr => (Return code, fr, []).
Definition emit (ev : Event) : M unit := fun fr => (Normal tt, fr, [ev]).

Definition set_world (fr : Frame World) (w : World) : Frame World :=
  {| execution_complete := execution_complete fr; net_conf := net_conf fr;
     fe_server := fe_server fr; world := w |}.

(** Call into a collaborator and record the call with its outcome. *)
Definition call {A} (f : World -> PyResult A * World) (ev : PyResult A -> Event) : M A :=
  fun fr =>
    let '(r, w) := f (world fr) in
    (match r with Returns a => Normal a | Raises e => Raise e end,
     set_world fr w, [ev r]).

Definition load_net_conf : M PyVal := fun fr => (Normal (net_conf fr), fr, []).

Definition store_net_conf (v : PyVal) : M unit :=
  fun fr =>
    (Normal tt,
     {| execution_complete := execution_complete fr; net_conf := v;
        fe_server := fe_server fr; world := world fr |}, []).

Definition load_fe_server : M (LauncherFrontEnd World) :=
  fun fr =>
    match fe_server fr with
    | Some fe => (Normal fe, fr, [])
    | None => (Raise (UnboundLocalError "fe_server"), fr, [])
    end.

Definition store_fe_server (fe : LauncherFrontEnd World) : M unit :=
  fun fr =>
    (Normal tt,
     {| execution_complete := execution_complete fr; net_conf := net_conf fr;
        fe_server := Some fe; world := world fr |}, []).

Definition store_execution_complete (b : bool) : M unit :=
  fun fr =>
    (Normal tt,
     {| execution_complete := b; net_conf := net_conf fr;
        fe_server := fe_server fr; world := world fr |}, []).

Notation "x <- m ;; k" := (bind m (fun x => k))
  (at level 100, m at next level, right associativity).
Notation "m ;;; k" := (bind m (fun _ => k))
  (at level 100, right associativity).

(** ** Python's compound statements *)

(** [with cm_expr as fe_server: body].  The manager is entered before the
    name is bound; [__exit__] runs on every way out of the body, receives
    the exception in flight, and suppresses it by answering true. *)
Definition py_with (cm_expr : M (LauncherFrontEnd World)) (body : M unit) : M unit :=
  cm <- cm_expr ;;
  call (fe_enter cm) (EvEnter (fe_id cm)) ;;;
  store_fe_server cm ;;;
  fun fr =>
    let '(c, fr1, ev1) := body fr in
    let '(x, fr2, ev2) :=
      call (fe_exit cm (match c with Raise e => Some e | _ => None end))
           (EvExit (fe_id cm) (match c with Raise e => Some e | _ => None end)) fr1 in
    (match x, c with
     | Normal suppress, Raise e => if suppress then Normal tt else Raise e
     | Normal _, _ => c
     | Raise e2, _ => Raise e2
     | Return code, _ => Return code
     end, fr2, ev1 ++ ev2).

(** [try: body / except Exception as err: handler / else: orelse]. *)
Definition py_try (body : M unit) (handler : PyExc -> M unit) (orelse : M unit) : M unit :=
  fun fr =>
    let '(c, fr1, ev1) := body fr in
    match c with
    | Normal _ => let '(c2, fr2, ev2) := orelse fr1 in (c2, fr2, ev1 ++ ev2)
    | Raise e =>
        if is_Exception e
        then let '(c2, fr2, ev2) := handler e fr1 in (c2, fr2, ev1 ++ ev2)
        else (Raise e, fr1, ev1)
    | Return code => (Return code, fr1, ev1)
    end.

(** [net_conf.items()]: [None] has no attribute [items]. *)
Definition items (v : PyVal) : M (list (string * NodeDescriptor)) :=
  fun fr =>
    match v with
    | PyNone => (Raise (AttributeError "NoneType" "items"), fr, [])
    | PyDict r => (Normal (map_to_list (dict_content (world fr) r)), fr, [])
    end.

Definition msg_no_resources : string :=
  "There are no more hardware resources available for continued app execution.".
Definition msg_not_enough_resources : string :=
  "There are not enough hardware resources available for continued app execution.".

Section WithArgs.
Variable args_map : A.

(** [args_map[key]] as a statement: a missing key raises [KeyError]. *)
Definition subscript_args (key : string) : M ArgVal :=
  fun fr =>
    match subscript args_map key with
    | Some v => (Normal v, fr, [])
    | None => (Raise (KeyError key), fr, [])
    end.

(** [v - 1] as a statement. *)
Definition less_one (v : ArgVal) : M Z :=
  fun fr =>
    match minus_one v with
    | Returns n => (Normal n, fr, [])
    | Raises e => (Raise e, fr, [])
    end.

(** Lines 41-44. *)
Definition with_body : M unit :=
  fe <- load_fe_server ;;
  hint <- load_net_conf ;;
  v <- call (run_startup fe hint) (EvRunStartup (fe_id fe) hint) ;;
  store_net_conf v ;;;
  fe <- load_fe_server ;;
  v <- call (run_app fe) (EvRunApp (fe_id fe)) ;;
  store_net_conf v ;;;
  fe <- load_fe_server ;;
  v <- call (run_msg_server fe) (EvRunMsgServer (fe_id fe)) ;;
  store_net_conf v.

Definition with_stmt : M unit :=
  py_with (call (new_LauncherFrontEnd args_map)
                (fun r => EvConstruct (match r with
                                       | Returns fe => Returns (fe_id fe)
                                       | Raises e => Raises e
                                       end)))
          with_body.

(** Lines 47-64. *)
Definition except_clause (err : PyExc) : M unit :=
  emit (EvLog (LogException err)) ;;;
  fe <- load_fe_server ;;
  if negb (resilient fe) then py_return LAUNCHER_FAIL_EXIT else
  nc <- load_net_conf ;;
  its <- items nc ;;
  let avail_nodes := count_avail_nodes its in
  emit (EvLog (LogAvailNodes avail_nodes)) ;;;
  exhaust <- subscript_args "exhaust_resources" ;;
  if truthy exhaust then
    if (Z.of_nat avail_nodes =? 0)
    then emit (EvPrint msg_no_resources) ;;; py_return LAUNCHER_FAIL_EXIT
    else ret tt
  else
    requested <- subscript_args "node_count" ;;
    threshold <- less_one requested ;;
    if (Z.of_nat avail_nodes =? threshold)
    then emit (EvPrint msg_not_enough_resources) ;;; py_return LAUNCHER_FAIL_EXIT
    else ret tt.

(** Lines 68-69. *)
Definition else_clause : M unit := store_execution_complete true.

(** The body of the [while] loop, lines 40-69. *)
Definition loop_body : M unit := py_try with_stmt except_clause else_clause.

(** [while not execution_complete: loop_body].  The loop may run for ever:
    [fuel] bounds the number of iterations, and [None] says the loop was
    still running when the fuel ran out.  The frame and the events reached
    so far are kept in both cases. *)
Fixpoint while_loop (fuel : nat) (fr : Frame World)
  : option (Completion unit) * Frame World * list Event :=
  if execution_complete fr then (Some (Normal tt), fr, []) else
  match fuel with
  | O => (None, fr, [])
  | S fuel' =>
      let '(c, fr1, ev1) := loop_body fr in
      match c with
      | Normal _ =>
          let '(c2, fr2, ev2) := while_loop fuel' fr1 in (c2, fr2, ev1 ++ ev2)
      | _ => (Some c, fr1, ev1)
      end
  end.

End WithArgs.

(** Lines 21-32, once line 21 has found the logging map: logging set-up,
    host id, and the dump of the arguments, one record per item whose
    value is not [None], in the order of the dict. *)
Definition prelude_of (args_map : A) : list Event :=
  [EvSetupLogging; EvLog LogStart; EvSetHostId; EvLog LogHostId]
  ++ map (fun item => EvLog (LogArg (fst item)))
       (List.filter (fun item => negb (is_None (snd item))) (args_items args_map)).

(** Lines 34-35. *)
Definition initial_frame (w : World) : Frame World :=
  {| execution_complete := false; net_conf := PyNone; fe_server := None; world := w |}.

(** [main(args_map=None)].  [Some (Return code)]: [main] returned [code];
    [Some (Raise e)]: [e] propagated out of [main]; [None]: still looping. *)
Definition main (args_map : option A) (fuel : nat) (w : World)
  : option (Completion unit) * Frame World * list Event :=
  let args_map := match args_map with Some a => a | None => get_cli_args end in
  match subscript args_map "log_device_level_map" with
  | None => (Some (Raise (KeyError "log_device_level_map")), initial_frame w, [])
  | Some _ =>
      let '(c, fr, ev) := while_loop args_map fuel (initial_frame w) in
      match c with
      | Some (Normal _) =>
          (Some (Return LAUNCHER_SUCCESS_EXIT), fr,
           prelude_of args_map ++ ev ++ [EvLog LogExiting])
      | _ => (c, fr, prelude_of args_map ++ ev)
      end
  end.

(** The frames in which the [except] clause cannot do its work.  The name
    [fe_server] is unbound when line 49 reads it; or, the session being
    resilient, [net_conf] is still [None] when line 53 calls [items],
    [args_map] has no key ['exhaust_resources'] for line 58, or, that
    option being false, [args_map] has no key ['node_count'] holding a
    number for line 62. *)
Definition handler_stuck (args_map : A) (fr : Frame World) : bool :=
  match fe_server fr with
  | None => true
  | Some fe =>
      resilient fe &&
      (match net_conf fr with PyNone => true | PyDict _ => false end
       || match subscript args_map "exhaust_resources" with
          | None => true
          | Some exhaust =>
              negb (truthy exhaust) &&
              match subscript args_map "node_count" with
              | None => true
              | Some requested =>
                  match minus_one requested with
                  | Raises _ => true
                  | Returns _ => false
                  end
              end
          end)
  end.

End Main.

(** The events of lines 21-32 when [args_map] is a record [Args]: its
    three items are logged, whatever the options are set to. *)
Definition prelude : list Event :=
  [EvSetupLogging; EvLog LogStart; EvSetHostId; EvLog LogHostId;
   EvLog (LogArg "log_device_level_map");
   EvLog (LogArg "exhaust_resources"); EvLog (LogArg "node_count")].

(** ** Reading the trace of events *)

(** The configuration a phase call hands back, when it returns. *)
Definition conf_update (cur : PyVal) (ev : Event) : PyVal :=
  match ev with
  | EvRunStartup _ _ (Returns v) => v
  | EvRunApp _ (Returns v) => v
  | EvRunMsgServer _ (Returns v) => v
  | _ => cur
  end.

(** The configuration returned by the last phase call that completed
    successfully along [tr], starting from [cur]. *)
Definition last_conf_from (cur : PyVal) (tr : list Event) : PyVal :=
  fold_left conf_update tr cur.

(** The same from the start of [main]: [None] while no phase has produced
    a configuration. *)
Definition last_conf (tr : list Event) : PyVal := last_conf_from PyNone tr.

Definition is_phase_call (ev : Event) : bool :=
  match ev with
  | EvRunStartup _ _ _ | EvRunApp _ _ | EvRunMsgServer _ _ => true
  | _ => false
  end.

Definition is_failed_phase_call (ev : Event) : bool :=
  match ev with
  | EvRunStartup _ _ (Raises _) | EvRunApp _ (Raises _) | EvRunMsgServer _ (Raises _) => true
  | _ => false
  end.

(** The exception a failed phase call raised. *)
Definition raised_by (ev : Event) : option PyExc :=
  match ev with
  | EvRunStartup _ _ (Raises e) | EvRunApp _ (Raises e) | EvRunMsgServer _ (Raises e) =>
      Some e
  | _ => None
  end.

(** The teardown of session [fe]. *)
Definition is_exit_of (fe : nat) (ev : Event) : bool :=
  match ev with
  | EvExit fe' _ _ => Nat.eqb fe' fe
  | _ => false
  end.

Definition is_exit (ev : Event) : bool :=
  match ev with
  | EvExit _ _ _ => true
  | _ => false
  end.

(** The session most recently entered along [tr], [cur] being the one
    entered before; sessions are named by their [fe_id]. *)
Definition entered_update (cur : option nat) (ev : Event) : option nat :=
  match ev with
  | EvEnter fe (Returns _) => Some fe
  | _ => cur
  end.

Definition last_entered_from (cur : option nat) (tr : list Event) : option nat :=
  fold_left entered_update tr cur.

Definition last_entered (tr : list Event) : option nat := last_entered_from None tr.

(** A call into the session, as opposed to a log record or a print. *)
Definition is_session_call (ev : Event) : bool :=
  match ev with
  | EvConstruct _ | EvEnter _ _ | EvRunStartup _ _ _ | EvRunApp _ _
  | EvRunMsgServer _ _ | EvExit _ _ _ => true
  | _ => false
  end.

(** Along [tr], every [run_startup] receives as hint the configuration
    current at that point, [cur] being the one current at the start. *)
Fixpoint hints_follow (cur : PyVal) (tr : list Event) : Prop :=
  match tr with
  | [] => True
  | ev :: tr' =>
      match ev with
      | EvRunStartup _ hint _ => hint = cur
      | _ => True
      end /\ hints_follow (conf_update cur ev) tr'
  end.

(** Along [tr], no phase is called after a phase call that raised. *)
Fixpoint stops_at_failure (tr : list Event) : Prop :=
  match tr with
  | [] => True
  | ev :: tr' =>
      (is_failed_phase_call ev = true -> Forall (fun ev' => is_phase_call ev' = false) tr')
      /\ stops_at_failure tr'
  end.

Section Reach.
Context {A World : Type} {HA : ArgsMap A} {H : Collaborators A World}.

(** [loop_reaches args w n fr tr]: started in world [w], the loop is about
    to begin its iteration number [n] (counted from 0) in frame [fr], the
    earlier iterations having emitted [tr]. *)
Inductive loop_reaches (args_map : A) (w : World)
  : nat -> Frame World -> list Event -> Prop :=
| reaches_first : loop_reaches args_map w 0 (initial_frame w) []
| reaches_next n fr tr fr1 ev :
    loop_reaches args_map w n fr tr ->
    execution_complete fr = false ->
    loop_body args_map fr = (Normal tt, fr1, ev) ->
    execution_complete fr1 = false ->
    loop_reaches args_map w (S n) fr1 (tr ++ ev).

End Reach.

(** ** A scripted collaborator, to run [main] on concrete inputs *)

Definition Heap : Type := ref -> NetworkConfiguration.

(** The world of the simulation: how many sessions were constructed so
    far, and the content of every dict object. *)
Record SimWorld : Type := { sessions : nat; heap : Heap }.

(** What the n-th constructed session does. *)
Record SessionScript : Type := {
  s_new : option PyExc;
  s_resilient : bool;
  s_enter : option PyExc;
  s_startup : PyVal -> Heap -> PyResult PyVal * Heap;
  s_app : Heap -> PyResult PyVal * Heap;
  s_msg : Heap -> PyResult PyVal * Heap;
  s_exit : PyResult bool
}.

Definition on_heap {A} (f : Heap -> PyResult A * Heap) (w : SimWorld)
  : PyResult A * SimWorld :=
  let '(r, h) := f (heap w) in (r, {| sessions := sessions w; heap := h |}).

Definition scripted_session (n : nat) (s : SessionScript) : LauncherFrontEnd SimWorld :=
  {| fe_id := n;
     resilient := s_resilient s;
     fe_enter := fun w =>
       (match s_enter s with Some e => Raises e | None => Returns tt end, w);
     run_startup := fun hint => on_heap (s_startup s hint);
     run_app := on_heap (s_app s);
     run_msg_server := on_heap (s_msg s);
     fe_exit := fun _ w => (s_exit s, w) |}.

Definition succeeds (v : PyVal) (h : Heap) : PyResult PyVal * Heap := (Returns v, h).
Definition fails (e : PyExc) (h : Heap) : PyResult PyVal * Heap := (Raises e, h).

Definition session (res : bool) (startup app msg : Heap -> PyResult PyVal * Heap)
  : SessionScript :=
  {| s_new := None; s_resilient := res; s_enter := None;
     s_startup := fun _ => startup; s_app := app; s_msg := msg;
     s_exit := Returns false |}.

(** A session whose three phases succeed and return dict 0. *)
Definition good_session (res : bool) : SessionScript :=
  session res (succeeds (PyDict 0)) (succeeds (PyDict 0)) (succeeds (PyDict 0)).

(** [run_startup] raises [e]. *)
Definition startup_fails (res : bool) (e : PyExc) : SessionScript :=
  session res (fails e) (succeeds (PyDict 0)) (succeeds (PyDict 0)).

(** [run_startup] returns dict 0, then [run_app] raises [e]. *)
Definition app_fails (res : bool) (e : PyExc) : SessionScript :=
  session res (succeeds (PyDict 0)) (fails e) (succeeds (PyDict 0)).

(** [run_app] rewrites dict 0 in place to [nc] (nodes went down while the
    application ran) and raises [e]. *)
Definition app_degrades (res : bool) (nc : NetworkConfiguration) (e : PyExc)
  : SessionScript :=
  session res (succeeds (PyDict 0))
    (fun h => (Raises e, fun r => if Nat.eqb r 0 then nc else h r))
    (succeeds (PyDict 0)).

(** [run_msg_server] raises [e]. *)
Definition msg_fails (res : bool) (e : PyExc) : SessionScript :=
  session res (succeeds (PyDict 0)) (succeeds (PyDict 0)) (fails e).

(** The constructor [LauncherFrontEnd(args_map=args_map)] raises [e]. *)
Definition no_session (e : PyExc) : SessionScript :=
  {| s_new := Some e; s_resilient := false; s_enter := None;
     s_startup := fun _ => fails e; s_app := fails e; s_msg := fails e;
     s_exit := Returns false |}.

Definition scripted {A : Type} (script : list SessionScript) (cli : A)
  : Collaborators A SimWorld :=
  {| new_LauncherFrontEnd := fun _ w =>
       let s := nth (sessions w) script (good_session false) in
       (match s_new s with
        | Some e => Raises e
        | None => Returns (scripted_session (sessions w) s)
        end,
        {| sessions := S (sessions w); heap := heap w |});
     dict_content := fun w r => heap w r;
     get_cli_args := cli;
     LAUNCHER_FAIL_EXIT := 1;
     LAUNCHER_SUCCESS_EXIT := 0 |}.

(** A collaborator all of whose sessions follow the same script. *)
Definition unending {A : Type} (s : SessionScript) (cli : A)
  : Collaborators A SimWorld :=
  {| new_LauncherFrontEnd := fun _ w =>
       (match s_new s with
        | Some e => Raises e
        | None => Returns (scripted_session (sessions w) s)
        end,
        {| sessions := S (sessions w); heap := heap w |});
     dict_content := fun w r => heap w r;
     get_cli_args := cli;
     LAUNCHER_FAIL_EXIT := 1;
     LAUNCHER_SUCCESS_EXIT := 0 |}.

Definition nd (s : State) : NodeDescriptor := {| state := s |}.

(** Front end and three workers, all healthy. *)
Definition three_up : NetworkConfiguration :=
  <["f" := nd ACTIVE]> (<["0" := nd ACTIVE]> (<["1" := nd IDLE]> (<["2" := nd ACTIVE]> ∅))).

(** The same cluster after worker 2 failed. *)
Definition two_up : NetworkConfiguration :=
  <["f" := nd ACTIVE]> (<["0" := nd ACTIVE]> (<["1" := nd IDLE]> (<["2" := nd (OtherState 0)]> ∅))).

(** No worker left. *)
Definition none_up : NetworkConfiguration :=
  <["f" := nd ACTIVE]> (<["0" := nd (OtherState 0)]> (<["1" := nd (OtherState 0)]> ∅)).

Definition heap_of (nc : NetworkConfiguration) : Heap := fun _ => nc.

Definition sim_start (nc : NetworkConfiguration) : SimWorld :=
  {| sessions := 0; heap := heap_of nc |}.

Definition threshold_args (n : Z) : Args := {| exhaust_resources := false; node_count := n |}.
Definition exhaust_args (n : Z) : Args := {| exhaust_resources := true; node_count := n |}.

(** A run of [main] on a script, keeping what an observer sees. *)
Definition simulate {A : Type} `{ArgsMap A} (script : list SessionScript) (args : A)
    (nc : NetworkConfiguration) (fuel : nat) : option (Completion unit) * list Event :=
  let '(c, _, ev) := main (H := scripted script args) (Some args) fuel (sim_start nc) in
  (c, ev).

(** A record written out as the plain dict it stands for. *)
Definition dict_of (a : Args) : Dict := args_items a.

(** The dict [d] without the key [key], and with [None] under it. *)
Definition without (key : string) (d : Dict) : Dict :=
  List.filter (fun item => negb (String.eqb (fst item) key)) d.

Definition with_None (key : string) (d : Dict) : Dict :=
  map (fun item => if String.eqb (fst item) key then (key, ArgNone) else item) d.

(** The failures used below: an ordinary error raised inside the session, a
    second one raised by the constructor, and a [KeyboardInterrupt]. *)
Definition crash : PyExc := OtherException 1.
Definition refused : PyExc := OtherException 2.
Definition interrupt : PyExc := OtherBaseException 1.

(** The application of a non-resilient session fails. *)
Definition script_non_resilient : list SessionScript := [app_fails false crash].

(** Worker 2 goes down while the application of a resilient session runs. *)
Definition script_degraded : list SessionScript := [app_degrades true two_up crash].

(** The first session starts up into dict 5 and fails in the application;
    the second session runs to the end. *)
Definition script_retry : list SessionScript :=
  [session true (succeeds (PyDict 5)) (fails crash) (succeeds (PyDict 5));
   good_session true].

(** The message server of the first session fails. *)
Definition script_msg_fails : list SessionScript := [msg_fails false crash].

(** The start-up of the first, resilient, session fails. *)
Definition script_startup_fails : list SessionScript := [startup_fails true crash].

(** The first session cannot even be constructed. *)
Definition script_no_session : list SessionScript := [no_session refused].

(** The application of the first, resilient, session fails; the second
    session cannot be constructed; the third runs to the end. *)
Definition script_stale : list SessionScript :=
  [app_fails true crash; no_session refused].

(** The user interrupts the application. *)
Definition script_interrupt : list SessionScript := [app_fails true interrupt].

(** The first attempt of a scripted run: the frame in which the loop
    starts, and what the [with] statement leaves behind. *)
Definition first_frame (nc : NetworkConfiguration) : Frame SimWorld :=
  initial_frame (sim_start nc).

Definition frame_after_with (script : list SessionScript) (args : Args)
    (nc : NetworkConfiguration) : Frame SimWorld :=
  snd (fst (with_stmt (H := scripted script args) args (first_frame nc))).

Definition events_of_with (script : list SessionScript) (args : Args)
    (nc : NetworkConfiguration) : list Event :=
  snd (with_stmt (H := scripted script args) args (first_frame nc)).

(** The frame and the events after the first turn of the loop. *)
Definition frame_after_turn (script : list SessionScript) (args : Args)
    (nc : NetworkConfiguration) : Frame SimWorld :=
  snd (fst (loop_body (H := scripted script args) args (first_frame nc))).

Definition events_of_turn (script : list SessionScript) (args : Args)
    (nc : NetworkConfiguration) : list Event :=
  snd (loop_body (H := scripted script args) args (first_frame nc)).

(** ** Further readings of the trace *)

Inductive Phase : Type :=
| Startup
| App
| MsgServer.

Definition phase_of (ev : Event) : option Phase :=
  match ev with
  | EvRunStartup _ _ _ => Some Startup
  | EvRunApp _ _ => Some App
  | EvRunMsgServer _ _ => Some MsgServer
  | _ => None
  end.

(** The phases called along [tr], in the order of the calls. *)
Definition phases_called (tr : list Event) : list Phase := omap phase_of tr.

(** The session that is open (entered and not yet torn down) after [ev],
    [cur] being the one open before. *)
Definition session_update (cur : option nat) (ev : Event) : option nat :=
  match ev with
  | EvEnter fe (Returns _) => Some fe
  | EvExit _ _ _ => None
  | _ => cur
  end.

Definition open_session_from (cur : option nat) (tr : list Event) : option nat :=
  fold_left session_update tr cur.

Definition open_session (tr : list Event) : option nat := open_session_from None tr.

(** What a call requires of the session open when it is made: the
    constructor and [__enter__] are called while none is open, a phase and
    [__exit__] on the open one. *)
Definition call_allowed (cur : option nat) (ev : Event) : Prop :=
  match ev with
  | EvConstruct _ | EvEnter _ _ => cur = None
  | EvRunStartup fe _ _ | EvRunApp fe _ | EvRunMsgServer fe _ | EvExit fe _ _ =>
      cur = Some fe
  | _ => True
  end.

Fixpoint bracketed (cur : option nat) (tr : list Event) : Prop :=
  match tr with
  | [] => True
  | ev :: tr' => call_allowed cur ev /\ bracketed (session_update cur ev) tr'
  end.

(** The session a call is made on; the constructor call is made on none. *)
Definition session_of (ev : Event) : option nat :=
  match ev with
  | EvEnter fe _ | EvRunStartup fe _ _ | EvRunApp fe _ | EvRunMsgServer fe _
  | EvExit fe _ _ => Some fe
  | _ => None
  end.

Definition is_construct (ev : Event) : bool :=
  match ev with
  | EvConstruct _ => true
  | _ => false
  end.

Definition is_print (ev : Event) : bool :=
  match ev with
  | EvPrint _ => true
  | _ => false
  end.

(** The message [main] prints before it gives up, by mode (lines 58-63). *)
Definition abort_message (args_map : Args) : string :=
  if exhaust_resources args_map then msg_no_resources else msg_not_enough_resources.

(** ** A declarative reading of the node count *)

Global Instance State_eq_dec : EqDecision State.
Proof. solve_decision. Defined.

(** An entry of the configuration that counts as an available node. *)
Definition counts (entry : string * NodeDescriptor) : Prop :=
  entry.1 <> "f"%string /\ (state entry.2 = ACTIVE \/ state entry.2 = IDLE).

Global Instance counts_dec (entry : string * NodeDescriptor) : Decision (counts entry).
Proof. unfold counts. apply _. Defined.

Section Entry.
Context {A World : Type} {HA : ArgsMap A} {H : Collaborators A World}.

(** The session of this turn is not acquired: the constructor raises
    [err], or it returns a manager whose [__enter__] raises [err]. *)
Definition acquisition_fails (args_map : A) (fr : Frame World) (err : PyExc) : Prop :=
  match new_LauncherFrontEnd args_map (world fr) with
  | (Raises e, _) => e = err
  | (Returns cm, w1) => fst (fe_enter cm w1) = Raises err
  end.

(** ** The script entry point (lines 75-78) *)

(** What the process does around [main]: it names itself, runs [main] and
    hands the value returned to [exit]. *)
Inductive ProcessEvent : Type :=
| PrSetProcname
| PrMain (ev : Event)
| PrExit (ecode : option Z).

(** How the script ends: by [exit(ecode)], or by an exception nobody
    caught. *)
Inductive ProcessEnd : Type :=
| ExitCalled (ecode : option Z)
| Uncaught (e : PyExc).

(** [set_procname(PROCNAME_LA_FE); ecode = main(); exit(ecode)].  A call
    that ends without a [return] yields [None]; the outer [None] says
    [main] is still looping. *)
Definition script_entry (fuel : nat) (w : World) : option ProcessEnd * list ProcessEvent :=
  let '(c, _, ev) := main None fuel w in
  match c with
  | Some (Return ecode) =>
      (Some (ExitCalled (Some ecode)),
       PrSetProcname :: map PrMain ev ++ [PrExit (Some ecode)])
  | Some (Normal _) =>
      (Some (ExitCalled None), PrSetProcname :: map PrMain ev ++ [PrExit None])
  | Some (Raise e) => (Some (Uncaught e), PrSetProcname :: map PrMain ev)
  | None => (None, PrSetProcname :: map PrMain ev)
  end.

End Entry.

(** ** More scripted sessions *)

(** [__enter__] raises [e]. *)
Definition no_entry (e : PyExc) : SessionScript :=
  {| s_new := None; s_resilient := true; s_enter := Some e;
     s_startup := fun _ => succeeds (PyDict 0); s_app := succeeds (PyDict 0);
     s_msg := succeeds (PyDict 0); s_exit := Returns false |}.

(** [run_app] raises [e] and [__exit__] suppresses it. *)
Definition app_fails_quietly (e : PyExc) : SessionScript :=
  {| s_new := None; s_resilient := true; s_enter := None;
     s_startup := fun _ => succeeds (PyDict 0); s_app := fails e;
     s_msg := succeeds (PyDict 0); s_exit := Returns true |}.

Definition script_no_entry : list SessionScript := [no_entry crash].
Definition script_suppressed : list SessionScript := [app_fails_quietly crash].

(** * Properties of the orchestration loop *)

(** ** The node health count *)

Lemma filter_length_perm {A} (p : A -> bool) (l1 l2 : list A) :
  l1 ≡ₚ l2 -> length (List.filter p l1) = length (List.filter p l2).
Proof.
  induction 1 as [|x l1 l2 _ IH|x y l|l1 l2 l3 _ IH1 _ IH2]; simpl.
  - reflexivity.
  - destruct (p x); simpl; by rewrite IH.
  - by destruct (p x), (p y).
  - congruence.
Qed.

(** The count does not depend on the order in which the dict is walked. *)
Lemma count_avail_nodes_perm (l1 l2 : list (string * NodeDescriptor)) :
  l1 ≡ₚ l2 -> count_avail_nodes l1 = count_avail_nodes l2.
Proof. apply filter_length_perm. Qed.

Lemma avail_nodes_empty : avail_nodes_of ∅ = 0%nat.
Proof. unfold avail_nodes_of. by rewrite map_to_list_empty. Qed.

(** A new entry counts for one exactly when its node is [ACTIVE] or [IDLE]
    and its index is not the front end's. *)
Lemma avail_nodes_insert (nc : gmap string NodeDescriptor) idx node :
  nc !! idx = None ->
  avail_nodes_of (<[idx := node]> nc) =
    if state_in (state node) healthy_states && negb (String.eqb idx "f")
    then S (avail_nodes_of nc)
    else avail_nodes_of nc.
Proof.
  intros Hfresh. unfold avail_nodes_of.
  rewrite (count_avail_nodes_perm _ _ (map_to_list_insert nc idx node Hfresh)).
  unfold count_avail_nodes.
  match goal with |- context [List.filter ?f _] => set (p := f) end.
  change (state_in (state node) healthy_states && negb (String.eqb idx "f"))
    with (p (idx, node)).
  cbn [List.filter]. by destruct (p (idx, node)).
Qed.

Lemma avail_nodes_le_size (nc : gmap string NodeDescriptor) :
  (avail_nodes_of nc <= size nc)%nat.
Proof.
  unfold avail_nodes_of, count_avail_nodes.
  rewrite <- length_map_to_list. apply List.filter_length_le.
Qed.

Lemma counts_reflect idx node :
  state_in (state node) healthy_states && negb (String.eqb idx "f") = true
  <-> counts (idx, node).
Proof.
  unfold counts, state_in, healthy_states. cbn.
  destruct (String.eqb_spec idx "f") as [->|Hne], (state node) as [| |tag]; cbn;
    intuition congruence.
Qed.

(** Counting the items of a dict that pass a boolean test gives the size
    of the dict filtered by the property the test decides. *)
Lemma filter_length_size (P : string * NodeDescriptor -> Prop)
    `{!forall x, Decision (P x)} (p : string * NodeDescriptor -> bool)
    (nc : gmap string NodeDescriptor) :
  (forall x, p x = true <-> P x) ->
  length (List.filter p (map_to_list nc)) = size (filter P nc).
Proof.
  intros Hp. induction nc as [|idx node nc Hfresh IH] using map_ind.
  - by rewrite map_to_list_empty, map_filter_empty, map_size_empty.
  - rewrite (filter_length_perm p _ _ (map_to_list_insert nc idx node Hfresh)).
    rewrite map_filter_insert. cbn [List.filter].
    destruct (p (idx, node)) eqn:Hc.
    + apply Hp in Hc. rewrite decide_True by done.
      rewrite map_size_insert_None; [cbn; by rewrite IH|].
      apply map_lookup_filter_None. by left.
    + rewrite decide_False.
      * by rewrite delete_id, IH.
      * intros HP. apply Hp in HP. congruence.
Qed.

(** The count the handler takes is the number of entries of the dict whose
    index is not ['f'] and whose state is [ACTIVE] or [IDLE]. *)
Lemma avail_nodes_of_counts (nc : gmap string NodeDescriptor) :
  avail_nodes_of nc = size (filter counts nc).
Proof.
  unfold avail_nodes_of, count_avail_nodes. apply filter_length_size.
  intros [idx node]. apply counts_reflect.
Qed.

(** ** Running the [with] statement, one collaborator call at a time *)

Ltac case_call t :=
  let r := fresh "r" in
  let w := fresh "w" in
  let E := fresh "Hcall" in
  destruct t as [r w] eqn:E; destruct r; cbn.

Ltac run_call :=
  match goal with
  | |- context [new_LauncherFrontEnd ?a ?w] => case_call (new_LauncherFrontEnd a w)
  | |- context [fe_enter ?c ?w] => case_call (fe_enter c w)
  | |- context [run_startup ?c ?h ?w] => case_call (run_startup c h w)
  | |- context [run_app ?c ?w] => case_call (run_app c w)
  | |- context [run_msg_server ?c ?w] => case_call (run_msg_server c w)
  | |- context [fe_exit ?c ?x ?w] => case_call (fe_exit c x w)
  end.

Ltac case_suppress :=
  match goal with
  | b : bool |- context [if ?b' then _ else _] => constr_eq b b'; destruct b; cbn
  end.

Ltac run_with_stmt :=
  unfold with_stmt, py_with, with_body, bind, call, load_fe_server, load_net_conf,
    store_net_conf, store_fe_server, set_world; cbn;
  repeat run_call; try case_suppress.

Ltac run_handler :=
  unfold except_clause, bind, emit, load_fe_server, load_net_conf, items,
    subscript_args, less_one, py_return, ret; cbn.

(** ** The loop on any [args_map] *)

Section AnyArgsMap.
Context {A World : Type} {HA : ArgsMap A} {H : Collaborators A World}.
Implicit Types (args : A) (fr : Frame World) (fe cm : LauncherFrontEnd World)
  (err e : PyExc).

Lemma with_stmt_keeps_flag args fr :
  execution_complete (snd (fst (with_stmt args fr))) = execution_complete fr.
Proof. run_with_stmt; reflexivity. Qed.

Lemma with_stmt_no_return args fr code :
  fst (fst (with_stmt args fr)) <> Return code.
Proof. run_with_stmt; intros [=]. Qed.

(** *** The [try] statement, by the way the [with] statement ends *)

Lemma loop_body_ok args fr fr1 ev1 :
  with_stmt args fr = (Normal tt, fr1, ev1) ->
  loop_body args fr =
    (Normal tt,
     {| execution_complete := true; net_conf := net_conf fr1;
        fe_server := fe_server fr1; world := world fr1 |}, ev1).
Proof.
  intros Hw. unfold loop_body, py_try. rewrite Hw. cbn.
  by rewrite app_nil_r.
Qed.

Lemma loop_body_caught args fr err fr1 ev1 :
  with_stmt args fr = (Raise err, fr1, ev1) ->
  is_Exception err = true ->
  loop_body args fr =
    (let '(c2, fr2, ev2) := except_clause args err fr1 in (c2, fr2, ev1 ++ ev2)).
Proof.
  intros Hw Hexc. unfold loop_body, py_try. by rewrite Hw, Hexc.
Qed.

Lemma loop_body_escapes args fr err fr1 ev1 :
  with_stmt args fr = (Raise err, fr1, ev1) ->
  is_Exception err = false ->
  loop_body args fr = (Raise err, fr1, ev1).
Proof.
  intros Hw Hexc. unfold loop_body, py_try. by rewrite Hw, Hexc.
Qed.

(** *** The [except] clause, case by case *)

Lemma except_unbound args err fr :
  fe_server fr = None ->
  except_clause args err fr =
    (Raise (UnboundLocalError "fe_server"), fr, [EvLog (LogException err)]).
Proof. intros Hfe. run_handler. by rewrite Hfe. Qed.

Lemma except_not_resilient args err fr fe :
  fe_server fr = Some fe ->
  resilient fe = false ->
  except_clause args err fr =
    (Return LAUNCHER_FAIL_EXIT, fr, [EvLog (LogException err)]).
Proof. intros Hfe Hres. run_handler. by rewrite Hfe, Hres. Qed.

Lemma except_no_conf args err fr fe :
  fe_server fr = Some fe ->
  resilient fe = true ->
  net_conf fr = PyNone ->
  except_clause args err fr =
    (Raise (AttributeError "NoneType" "items"), fr, [EvLog (LogException err)]).
Proof.
  intros Hfe Hres Hnc. run_handler.
  rewrite Hfe; cbn. rewrite Hres; cbn. by rewrite Hnc.
Qed.

(** Resilient session, [net_conf] a dict: the count is taken and logged,
    then the two subscripts of [args_map] decide. *)
Lemma except_decides args err fr fe r :
  fe_server fr = Some fe ->
  resilient fe = true ->
  net_conf fr = PyDict r ->
  let avail := avail_nodes_of (dict_content (world fr) r) in
  let seen := [EvLog (LogException err); EvLog (LogAvailNodes avail)] in
  except_clause args err fr =
    match subscript args "exhaust_resources" with
    | None => (Raise (KeyError "exhaust_resources"), fr, seen)
    | Some exhaust =>
        if truthy exhaust then
          if Z.of_nat avail =? 0
          then (Return LAUNCHER_FAIL_EXIT, fr, seen ++ [EvPrint msg_no_resources])
          else (Normal tt, fr, seen)
        else
          match subscript args "node_count" with
          | None => (Raise (KeyError "node_count"), fr, seen)
          | Some requested =>
              match minus_one requested with
              | Raises e => (Raise e, fr, seen)
              | Returns threshold =>
                  if Z.of_nat avail =? threshold
                  then (Return LAUNCHER_FAIL_EXIT, fr,
                        seen ++ [EvPrint msg_not_enough_resources])
                  else (Normal tt, fr, seen)
              end
          end
    end.
Proof.
  intros Hfe Hres Hnc. run_handler.
  rewrite Hfe; cbn. rewrite Hres; cbn. rewrite Hnc; cbn.
  unfold avail_nodes_of.
  destruct (subscript args "exhaust_resources") as [exhaust|]; cbn; [|done].
  destruct (truthy exhaust); cbn.
  - match goal with |- context [Z.eqb ?a ?b] => destruct (Z.eqb a b) end; reflexivity.
  - destruct (subscript args "node_count") as [requested|]; cbn; [|done].
    destruct (minus_one requested) as [threshold|e]; cbn; [|done].
    match goal with |- context [Z.eqb ?a ?b] => destruct (Z.eqb a b) end; reflexivity.
Qed.

(** *** One turn of the [while] loop *)

Lemma while_loop_step args fuel fr :
  execution_complete fr = false ->
  while_loop args (S fuel) fr =
    (let '(c, fr1, ev1) := loop_body args fr in
     match c with
     | Normal _ =>
         let '(c2, fr2, ev2) := while_loop args fuel fr1 in (c2, fr2, ev1 ++ ev2)
     | _ => (Some c, fr1, ev1)
     end).
Proof. intros Hrun. cbn. by rewrite Hrun. Qed.

Lemma while_loop_done args fuel fr :
  execution_complete fr = true ->
  while_loop args fuel fr = (Some (Normal tt), fr, []).
Proof. intros Hdone. destruct fuel; cbn; by rewrite Hdone. Qed.

(** *** From a turn of the loop to [main] *)

(** The loop run from the start is its first [n] turns followed by the loop
    run from the frame they reach. *)
Lemma while_loop_reaches args w n fr tr :
  loop_reaches args w n fr tr ->
  forall k,
    while_loop args (n + k) (initial_frame w) =
      (let '(c, fr2, ev2) := while_loop args k fr in (c, fr2, tr ++ ev2)).
Proof.
  induction 1 as [|n fr tr fr1 ev Hreach IH Hrun Hbody Hflag]; intros k.
  - cbn [Nat.add]. by destruct (while_loop args k (initial_frame w)) as [[c fr2] ev2].
  - replace (S n + k)%nat with (n + S k)%nat by lia.
    rewrite IH, (while_loop_step _ _ _ Hrun), Hbody.
    destruct (while_loop args k fr1) as [[c fr2] ev2]. by rewrite app_assoc.
Qed.

(** Every turn the loop reaches is running: the flag is still false. *)
Lemma reaches_running args w n fr tr :
  loop_reaches args w n fr tr -> execution_complete fr = false.
Proof. by destruct 1. Qed.

(** *** What can leave the loop *)

(** A turn of the loop returns nothing but [LAUNCHER_FAIL_EXIT]. *)
Lemma loop_body_returns args fr code :
  fst (fst (loop_body args fr)) = Return code -> code = LAUNCHER_FAIL_EXIT.
Proof.
  destruct (with_stmt args fr) as [[c fr1] ev1] eqn:Hw.
  destruct c as [[]|e|code0].
  - by rewrite (loop_body_ok _ _ _ _ Hw).
  - destruct (is_Exception e) eqn:Hexc.
    + rewrite (loop_body_caught _ _ _ _ _ Hw Hexc).
      destruct (fe_server fr1) as [fe|] eqn:Hfe.
      * destruct (resilient fe) eqn:Hres.
        -- destruct (net_conf fr1) as [|r] eqn:Hnc.
           ++ by rewrite (except_no_conf _ _ _ _ Hfe Hres Hnc).
           ++ rewrite (except_decides _ _ _ _ _ Hfe Hres Hnc). cbn zeta.
              destruct (subscript args "exhaust_resources") as [exhaust|]; [|done].
              destruct (truthy exhaust);
                [|destruct (subscript args "node_count") as [requested|]; [|done];
                  destruct (minus_one requested) as [threshold|e0]; [|done]];
                match goal with |- context [Z.eqb ?a ?b] => destruct (Z.eqb a b) end;
                cbn; congruence.
        -- rewrite (except_not_resilient _ _ _ _ Hfe Hres). cbn. congruence.
      * by rewrite (except_unbound _ _ _ Hfe).
    + by rewrite (loop_body_escapes _ _ _ _ _ Hw Hexc).
  - exfalso. apply (with_stmt_no_return args fr code0). by rewrite Hw.
Qed.

(** An [Exception] that leaves the [with] statement while the handler can
    do its work is handled within the turn: the loop goes on to its next
    turn, or [main] returns [LAUNCHER_FAIL_EXIT]. *)
Lemma loop_body_handles args fr err fr1 ev1 :
  with_stmt args fr = (Raise err, fr1, ev1) ->
  is_Exception err = true ->
  handler_stuck args fr1 = false ->
  fst (fst (loop_body args fr)) = Normal tt \/
  fst (fst (loop_body args fr)) = Return LAUNCHER_FAIL_EXIT.
Proof.
  intros Hw Hexc. unfold handler_stuck.
  rewrite (loop_body_caught _ _ _ _ _ Hw Hexc).
  destruct (fe_server fr1) as [fe|] eqn:Hfe; [|done].
  destruct (resilient fe) eqn:Hres; cbn [andb].
  - destruct (net_conf fr1) as [|r] eqn:Hnc; [done|]. cbn [orb].
    rewrite (except_decides _ _ _ _ _ Hfe Hres Hnc). cbn zeta.
    destruct (subscript args "exhaust_resources") as [exhaust|]; [|done].
    destruct (truthy exhaust); cbn [negb andb].
    + intros _.
      match goal with |- context [Z.eqb ?a ?b] => destruct (Z.eqb a b) end; cbn; tauto.
    + destruct (subscript args "node_count") as [requested|]; [|done].
      destruct (minus_one requested) as [threshold|e]; [|done]. intros _.
      match goal with |- context [Z.eqb ?a ?b] => destruct (Z.eqb a b) end; cbn; tauto.
  - intros _. rewrite (except_not_resilient _ _ _ _ Hfe Hres). cbn. tauto.
Qed.

(** An exception leaves a turn of the loop in two ways only: it left the
    [with] statement and is not an instance of [Exception]; or an
    [Exception] left the [with] statement and the handler met a frame in
    which it cannot do its work. *)
Lemma loop_body_raises args fr e :
  fst (fst (loop_body args fr)) = Raise e ->
  exists err fr1 ev1,
    with_stmt args fr = (Raise err, fr1, ev1) /\
    ((is_Exception err = false /\ e = err) \/
     (is_Exception err = true /\ handler_stuck args fr1 = true)).
Proof.
  destruct (with_stmt args fr) as [[c fr1] ev1] eqn:Hw.
  destruct c as [[]|err|code].
  - by rewrite (loop_body_ok _ _ _ _ Hw).
  - intros Hraise. exists err, fr1, ev1. split; [done|].
    destruct (is_Exception err) eqn:Hexc.
    + right. split; [done|].
      destruct (handler_stuck args fr1) eqn:Hstuck; [done|].
      destruct (loop_body_handles _ _ _ _ _ Hw Hexc Hstuck); congruence.
    + left. split; [done|].
      rewrite (loop_body_escapes _ _ _ _ _ Hw Hexc) in Hraise. cbn in Hraise. congruence.
  - exfalso. apply (with_stmt_no_return args fr code). by rewrite Hw.
Qed.

Lemma while_loop_returns args fuel fr code :
  fst (fst (while_loop args fuel fr)) = Some (Return code) -> code = LAUNCHER_FAIL_EXIT.
Proof.
  revert fr. induction fuel as [|fuel IH]; intros fr.
  - cbn. by destruct (execution_complete fr).
  - destruct (execution_complete fr) eqn:Hrun.
    + by rewrite (while_loop_done _ _ _ Hrun).
    + rewrite (while_loop_step _ _ _ Hrun).
      pose proof (loop_body_returns args fr) as Hbody.
      destruct (loop_body args fr) as [[c fr1] ev1]. cbn [fst] in Hbody.
      destruct c as [[]|e|code0].
      * specialize (IH fr1).
        by destruct (while_loop args fuel fr1) as [[c2 fr2] ev2].
      * done.
      * cbn. intros [= <-]. by apply Hbody.
Qed.

(** An exception that ends the loop left one of the turns the loop
    reached, in one of the two ways a turn lets an exception out. *)
Lemma while_loop_raises args w fuel :
  forall n fr tr e,
    loop_reaches args w n fr tr ->
    fst (fst (while_loop args fuel fr)) = Some (Raise e) ->
    exists n' fr' tr' err fr1 ev1,
      loop_reaches args w n' fr' tr' /\
      fst (fst (loop_body args fr')) = Raise e /\
      with_stmt args fr' = (Raise err, fr1, ev1) /\
      ((is_Exception err = false /\ e = err) \/
       (is_Exception err = true /\ handler_stuck args fr1 = true)).
Proof.
  induction fuel as [|fuel IH]; intros n fr tr e Hreach.
  - cbn. by destruct (execution_complete fr).
  - pose proof (reaches_running _ _ _ _ _ Hreach) as Hrun.
    rewrite (while_loop_step _ _ _ Hrun).
    pose proof (loop_body_raises args fr) as Hraise.
    destruct (loop_body args fr) as [[c fr1] ev1] eqn:Hbody. cbn [fst] in Hraise.
    destruct c as [[]|e0|code].
    + destruct (execution_complete fr1) eqn:Hflag.
      * by rewrite (while_loop_done _ _ _ Hflag).
      * specialize (IH (S n) fr1 (tr ++ ev1) e
                      (reaches_next _ _ _ _ _ _ _ Hreach Hrun Hbody Hflag)).
        by destruct (while_loop args fuel fr1) as [[c2 fr2] ev2].
    + cbn. intros [= <-].
      destruct (Hraise e0 eq_refl) as (err & fr1' & ev1' & Hw & Hcase).
      exists n, fr, tr, err, fr1', ev1'. by rewrite Hbody.
    + done.
Qed.

(** C4, amended.  When [main] terminates it has returned
    [LAUNCHER_SUCCESS_EXIT] or [LAUNCHER_FAIL_EXIT], or an exception left
    it, in one of three ways.  Before the loop: [KeyError] at line 21, when
    [args_map] has no key ['log_device_level_map'].  From a turn the loop
    reached: the exception left the [with] statement and is not an instance
    of [Exception], which [except Exception] lets through.  Or, from a turn
    the loop reached: an [Exception] left the [with] statement and the
    handler met a frame in which it cannot do its work ([handler_stuck]).
    In every other frame an [Exception] that leaves the [with] statement is
    handled inside the loop: the turn ends normally, for the loop to go on,
    or by [return LAUNCHER_FAIL_EXIT]. *)
Theorem main_exit_status (given : option A) w :
  let args_map := default get_cli_args given in
  (forall fuel c,
     fst (fst (main given fuel w)) = Some c ->
     c = Return LAUNCHER_SUCCESS_EXIT \/
     c = Return LAUNCHER_FAIL_EXIT \/
     (c = Raise (KeyError "log_device_level_map") /\
      subscript args_map "log_device_level_map" = None) \/
     exists e n fr tr err fr1 ev1,
       c = Raise e /\
       loop_reaches args_map w n fr tr /\
       fst (fst (loop_body args_map fr)) = Raise e /\
       with_stmt args_map fr = (Raise err, fr1, ev1) /\
       ((is_Exception err = false /\ e = err) \/
        (is_Exception err = true /\ handler_stuck args_map fr1 = true))) /\
  (forall fr err fr1 ev1,
     with_stmt args_map fr = (Raise err, fr1, ev1) ->
     is_Exception err = true ->
     handler_stuck args_map fr1 = false ->
     fst (fst (loop_body args_map fr)) = Normal tt \/
     fst (fst (loop_body args_map fr)) = Return LAUNCHER_FAIL_EXIT).
Proof.
  intros args_map. split; [|apply loop_body_handles].
  intros fuel c. unfold main.
  change (match given with Some a => a | None => get_cli_args end) with args_map.
  destruct (subscript args_map "log_device_level_map") as [logging|] eqn:Hkey.
  - pose proof (while_loop_returns args_map fuel (initial_frame w)) as Hret.
    pose proof (while_loop_raises args_map w fuel 0 (initial_frame w) []) as Hraise.
    destruct (while_loop args_map fuel (initial_frame w)) as [[c0 fr] ev].
    cbn [fst] in Hret, Hraise.
    destruct c0 as [[[]|e|code]|]; cbn; intros Hend; [| | |discriminate];
      injection Hend as <-.
    + by left.
    + do 3 right.
      destruct (Hraise e (reaches_first _ _) eq_refl)
        as (n & fr' & tr' & err & fr1 & ev1 & Hreach & Hbody & Hw & Hcase).
      by exists e, n, fr', tr', err, fr1, ev1.
    + right; left. by rewrite (Hret code eq_refl).
  - cbn. intros [= <-]. right; right; left. done.
Qed.

End AnyArgsMap.

(** ** The loop on a record of arguments *)

Section Properties.
Context {World : Type} {H : Collaborators Args World}.
Implicit Types (fr : Frame World) (fe cm : LauncherFrontEnd World) (err e : PyExc).

(** On a record line 21 finds the logging map, and the arguments dumped are
    its three items. *)
Lemma main_on_record (given : option Args) fuel w :
  main given fuel w =
    (let '(c, fr, ev) :=
       while_loop (match given with Some a => a | None => get_cli_args end)
         fuel (initial_frame w) in
     match c with
     | Some (Normal _) =>
         (Some (Return LAUNCHER_SUCCESS_EXIT), fr, prelude ++ ev ++ [EvLog LogExiting])
     | _ => (c, fr, prelude ++ ev)
     end).
Proof. reflexivity. Qed.

(** On a record the handler can do its work unless [fe_server] is unbound
    or the session is resilient and [net_conf] is still [None]. *)
Lemma handler_stuck_on_record (args : Args) fr :
  handler_stuck args fr =
    match fe_server fr with
    | None => true
    | Some fe =>
        resilient fe && match net_conf fr with PyNone => true | PyDict _ => false end
    end.
Proof.
  unfold handler_stuck. destruct (fe_server fr) as [fe|]; [|done].
  cbn. destruct (exhaust_resources args); cbn; by rewrite ?orb_false_r.
Qed.

Lemma except_classifies args err fr fe r :
  fe_server fr = Some fe ->
  resilient fe = true ->
  net_conf fr = PyDict r ->
  let avail := avail_nodes_of (dict_content (world fr) r) in
  let seen := [EvLog (LogException err); EvLog (LogAvailNodes avail)] in
  except_clause args err fr =
    if exhaust_resources args then
      if Z.of_nat avail =? 0
      then (Return LAUNCHER_FAIL_EXIT, fr, seen ++ [EvPrint msg_no_resources])
      else (Normal tt, fr, seen)
    else
      if Z.of_nat avail =? node_count args - 1
      then (Return LAUNCHER_FAIL_EXIT, fr, seen ++ [EvPrint msg_not_enough_resources])
      else (Normal tt, fr, seen).
Proof.
  intros Hfe Hres Hnc. by rewrite (except_decides _ _ _ _ _ Hfe Hres Hnc).
Qed.

(** *** From a turn of the loop to [main] *)

(** [main()] is [main(get_cli_args())]. *)
Lemma main_default_args fuel w : main None fuel w = main (Some get_cli_args) fuel w.
Proof. reflexivity. Qed.

(** A [return] in the turn numbered [n] is the return of [main]. *)
Lemma main_returns_from_turn args w n fr tr code fr1 ev k :
  loop_reaches args w n fr tr ->
  execution_complete fr = false ->
  loop_body args fr = (Return code, fr1, ev) ->
  main (Some args) (n + S k) w = (Some (Return code), fr1, prelude ++ tr ++ ev).
Proof.
  intros Hreach Hrun Hbody. rewrite main_on_record; cbv beta iota.
  rewrite (while_loop_reaches _ _ _ _ _ Hreach (S k)).
  by rewrite (while_loop_step _ _ _ Hrun), Hbody.
Qed.

(** *** Abort or retry *)

(** C5.  In any turn the loop reaches: when the attempt fails (the [with]
    statement lets an [Exception] through, as a phase that raises does) and
    the session bound to [fe_server] is not resilient, the handler logs the
    exception and [main] returns [LAUNCHER_FAIL_EXIT] at once, whatever
    [args_map] and [net_conf] hold; the node count is never taken (no
    [LogAvailNodes] record, no print). *)
Theorem non_resilient_failure_aborts args w n fr tr err fr1 ev1 fe k :
  loop_reaches args w n fr tr ->
  execution_complete fr = false ->
  with_stmt args fr = (Raise err, fr1, ev1) ->
  is_Exception err = true ->
  fe_server fr1 = Some fe ->
  resilient fe = false ->
  loop_body args fr =
    (Return LAUNCHER_FAIL_EXIT, fr1, ev1 ++ [EvLog (LogException err)]) /\
  main (Some args) (n + S k) w =
    (Some (Return LAUNCHER_FAIL_EXIT), fr1,
     prelude ++ tr ++ ev1 ++ [EvLog (LogException err)]).
Proof.
  intros Hreach Hrun Hw Hexc Hfe Hres.
  assert (Hbody : loop_body args fr =
            (Return LAUNCHER_FAIL_EXIT, fr1, ev1 ++ [EvLog (LogException err)])).
  { rewrite (loop_body_caught _ _ _ _ _ Hw Hexc).
    by rewrite (except_not_resilient _ _ _ _ Hfe Hres). }
  split; [exact Hbody|].
  exact (main_returns_from_turn _ _ _ _ _ _ _ _ k Hreach Hrun Hbody).
Qed.

(** Resilient policy while [net_conf] is still [None]: the handler faults
    on [None.items()] and the error leaves the loop. *)
Lemma resilient_failure_without_configuration args fr err fr1 ev1 fe fuel :
  execution_complete fr = false ->
  with_stmt args fr = (Raise err, fr1, ev1) ->
  is_Exception err = true ->
  fe_server fr1 = Some fe ->
  resilient fe = true ->
  net_conf fr1 = PyNone ->
  while_loop args (S fuel) fr =
    (Some (Raise (AttributeError "NoneType" "items")), fr1,
     ev1 ++ [EvLog (LogException err)]).
Proof.
  intros Hrun Hw Hexc Hfe Hres Hnc.
  rewrite (while_loop_step _ _ _ Hrun), (loop_body_caught _ _ _ _ _ Hw Hexc).
  by rewrite (except_no_conf _ _ _ _ Hfe Hres Hnc).
Qed.

(** A failed attempt while [fe_server] was never bound: the handler faults
    on the read of the name. *)
Lemma failure_before_first_session args fr err fr1 ev1 fuel :
  execution_complete fr = false ->
  with_stmt args fr = (Raise err, fr1, ev1) ->
  is_Exception err = true ->
  fe_server fr1 = None ->
  while_loop args (S fuel) fr =
    (Some (Raise (UnboundLocalError "fe_server")), fr1,
     ev1 ++ [EvLog (LogException err)]).
Proof.
  intros Hrun Hw Hexc Hfe.
  rewrite (while_loop_step _ _ _ Hrun), (loop_body_caught _ _ _ _ _ Hw Hexc).
  by rewrite (except_unbound _ _ _ Hfe).
Qed.

Lemma resilient_failure_classified args fr err fr1 ev1 fe r :
  with_stmt args fr = (Raise err, fr1, ev1) ->
  is_Exception err = true ->
  fe_server fr1 = Some fe ->
  resilient fe = true ->
  net_conf fr1 = PyDict r ->
  let avail := avail_nodes_of (dict_content (world fr1) r) in
  let seen := ev1 ++ [EvLog (LogException err); EvLog (LogAvailNodes avail)] in
  loop_body args fr =
    if exhaust_resources args then
      if Z.of_nat avail =? 0
      then (Return LAUNCHER_FAIL_EXIT, fr1, seen ++ [EvPrint msg_no_resources])
      else (Normal tt, fr1, seen)
    else
      if Z.of_nat avail =? node_count args - 1
      then (Return LAUNCHER_FAIL_EXIT, fr1, seen ++ [EvPrint msg_not_enough_resources])
      else (Normal tt, fr1, seen).
Proof.
  intros Hw Hexc Hfe Hres Hnc avail seen.
  rewrite (loop_body_caught _ _ _ _ _ Hw Hexc).
  rewrite (except_classifies _ _ _ _ _ Hfe Hres Hnc). cbn zeta.
  fold avail. subst seen.
  destruct (exhaust_resources args);
    match goal with |- context [Z.eqb ?a ?b] => destruct (Z.eqb a b) end;
    by rewrite <- ?app_assoc.
Qed.

(** C2.  Threshold mode ([exhaust_resources] false), resilient session,
    [net_conf] bound to a dict.  In any turn the loop reaches, a failed
    attempt makes [main] return [LAUNCHER_FAIL_EXIT] if and only if the
    number of entries of that dict other than ['f'] whose state is [ACTIVE]
    or [IDLE] ([counts]) equals [node_count - 1]; for every other count,
    smaller or larger, the turn ends normally and the loop reaches its next
    turn with the frame, [net_conf] included, as the attempt left it.  The
    number is the one the handler logs. *)
Theorem threshold_mode_decision args w n fr tr err fr1 ev1 fe r :
  loop_reaches args w n fr tr ->
  exhaust_resources args = false ->
  execution_complete fr = false ->
  with_stmt args fr = (Raise err, fr1, ev1) ->
  is_Exception err = true ->
  fe_server fr1 = Some fe ->
  resilient fe = true ->
  net_conf fr1 = PyDict r ->
  let avail := size (filter counts (dict_content (world fr1) r)) in
  let seen := ev1 ++ [EvLog (LogException err); EvLog (LogAvailNodes avail)] in
  ((exists fr2 ev2, loop_body args fr = (Return LAUNCHER_FAIL_EXIT, fr2, ev2))
   <-> Z.of_nat avail = node_count args - 1)
  /\ (Z.of_nat avail = node_count args - 1 ->
      forall k,
        main (Some args) (n + S k) w =
          (Some (Return LAUNCHER_FAIL_EXIT), fr1,
           prelude ++ tr ++ seen ++ [EvPrint msg_not_enough_resources]))
  /\ (Z.of_nat avail <> node_count args - 1 ->
      loop_body args fr = (Normal tt, fr1, seen) /\
      loop_reaches args w (S n) fr1 (tr ++ seen)).
Proof.
  intros Hreach Hmode Hrun Hw Hexc Hfe Hres Hnc avail seen.
  pose proof (resilient_failure_classified args _ _ _ _ _ _ Hw Hexc Hfe Hres Hnc) as Hbody.
  cbn zeta in Hbody. rewrite avail_nodes_of_counts in Hbody.
  fold avail in Hbody. fold seen in Hbody.
  rewrite Hmode in Hbody.
  assert (Hflag : execution_complete fr1 = false).
  { pose proof (with_stmt_keeps_flag args fr) as Hk. rewrite Hw in Hk. cbn in Hk. congruence. }
  destruct (Z.eqb_spec (Z.of_nat avail) (node_count args - 1)) as [Heq|Hne].
  - split; [|split].
    + split; [done | eauto].
    + intros _ k. exact (main_returns_from_turn _ _ _ _ _ _ _ _ k Hreach Hrun Hbody).
    + done.
  - split; [|split].
    + split; [|done]. intros (fr2 & ev2 & Habs). rewrite Hbody in Habs. discriminate.
    + done.
    + intros _. split; [exact Hbody|]. by eapply reaches_next.
Qed.

(** C6.  Exhaust mode ([exhaust_resources] true), resilient session,
    [net_conf] bound to a dict.  In any turn the loop reaches, a failed
    attempt makes [main] return [LAUNCHER_FAIL_EXIT] if and only if the
    number of entries of that dict other than ['f'] whose state is [ACTIVE]
    or [IDLE] ([counts]) is 0; with one or more the loop reaches its next
    turn.  [node_count] plays no part.  The number is the one the handler
    logs. *)
Theorem exhaust_mode_decision args w n fr tr err fr1 ev1 fe r :
  loop_reaches args w n fr tr ->
  exhaust_resources args = true ->
  execution_complete fr = false ->
  with_stmt args fr = (Raise err, fr1, ev1) ->
  is_Exception err = true ->
  fe_server fr1 = Some fe ->
  resilient fe = true ->
  net_conf fr1 = PyDict r ->
  let avail := size (filter counts (dict_content (world fr1) r)) in
  let seen := ev1 ++ [EvLog (LogException err); EvLog (LogAvailNodes avail)] in
  ((exists fr2 ev2, loop_body args fr = (Return LAUNCHER_FAIL_EXIT, fr2, ev2))
   <-> avail = 0%nat)
  /\ (avail = 0%nat ->
      forall k,
        main (Some args) (n + S k) w =
          (Some (Return LAUNCHER_FAIL_EXIT), fr1,
           prelude ++ tr ++ seen ++ [EvPrint msg_no_resources]))
  /\ ((1 <= avail)%nat ->
      loop_body args fr = (Normal tt, fr1, seen) /\
      loop_reaches args w (S n) fr1 (tr ++ seen)).
Proof.
  intros Hreach Hmode Hrun Hw Hexc Hfe Hres Hnc avail seen.
  pose proof (resilient_failure_classified args _ _ _ _ _ _ Hw Hexc Hfe Hres Hnc) as Hbody.
  cbn zeta in Hbody. rewrite avail_nodes_of_counts in Hbody.
  fold avail in Hbody. fold seen in Hbody.
  rewrite Hmode in Hbody.
  assert (Hflag : execution_complete fr1 = false).
  { pose proof (with_stmt_keeps_flag args fr) as Hk. rewrite Hw in Hk. cbn in Hk. congruence. }
  destruct (Z.eqb_spec (Z.of_nat avail) 0) as [Heq|Hne].
  - assert (avail = 0%nat) as Hz by lia.
    split; [|split].
    + split; [done | eauto].
    + intros _ k. exact (main_returns_from_turn _ _ _ _ _ _ _ _ k Hreach Hrun Hbody).
    + lia.
  - assert (avail <> 0%nat) as Hnz by lia.
    split; [|split].
    + split; [|done]. intros (fr2 & ev2 & Habs). rewrite Hbody in Habs. discriminate.
    + done.
    + intros _. split; [exact Hbody|]. by eapply reaches_next.
Qed.

(** *** A first attempt that succeeds *)

(** When the three phases of the first session return, [main] returns
    [LAUNCHER_SUCCESS_EXIT] after this one turn, having called the phases
    once each and in order, between [__enter__] and [__exit__]. *)
Lemma first_attempt_succeeds args fuel w cm w1 w2 v1 w3 v2 w4 v3 w5 b w6 :
  new_LauncherFrontEnd args w = (Returns cm, w1) ->
  fe_enter cm w1 = (Returns tt, w2) ->
  run_startup cm PyNone w2 = (Returns v1, w3) ->
  run_app cm w3 = (Returns v2, w4) ->
  run_msg_server cm w4 = (Returns v3, w5) ->
  fe_exit cm None w5 = (Returns b, w6) ->
  main (Some args) (S fuel) w =
    (Some (Return LAUNCHER_SUCCESS_EXIT),
     {| execution_complete := true; net_conf := v3; fe_server := Some cm; world := w6 |},
     prelude ++
     [EvConstruct (Returns (fe_id cm)); EvEnter (fe_id cm) (Returns tt);
      EvRunStartup (fe_id cm) PyNone (Returns v1);
      EvRunApp (fe_id cm) (Returns v2);
      EvRunMsgServer (fe_id cm) (Returns v3);
      EvExit (fe_id cm) None (Returns b)] ++ [EvLog LogExiting]).
Proof.
  intros Hnew Henter Hstartup Happ Hmsg Hexit.
  assert (Hw : with_stmt args (initial_frame w) =
    (Normal tt,
     {| execution_complete := false; net_conf := v3; fe_server := Some cm; world := w6 |},
     [EvConstruct (Returns (fe_id cm)); EvEnter (fe_id cm) (Returns tt);
      EvRunStartup (fe_id cm) PyNone (Returns v1);
      EvRunApp (fe_id cm) (Returns v2);
      EvRunMsgServer (fe_id cm) (Returns v3);
      EvExit (fe_id cm) None (Returns b)])).
  { unfold with_stmt, py_with, with_body, bind, call, load_fe_server, load_net_conf,
      store_net_conf, store_fe_server, set_world; cbn.
    rewrite Hnew; cbn. rewrite Henter; cbn. rewrite Hstartup; cbn.
    rewrite Happ; cbn. rewrite Hmsg; cbn. by rewrite Hexit. }
  rewrite main_on_record; cbv beta iota. rewrite while_loop_step by done.
  rewrite (loop_body_ok _ _ _ _ Hw). by rewrite while_loop_done.
Qed.

(** *** The events of one turn of the loop *)

Ltac case_handler :=
  repeat match goal with
    | |- context [fe_server ?fr] => destruct (fe_server fr); cbn
    | |- context [resilient ?fe] => destruct (resilient fe); cbn
    | |- context [net_conf ?fr] => destruct (net_conf fr); cbn
    | |- context [exhaust_resources ?a] => destruct (exhaust_resources a); cbn
    | |- context [Z.eqb ?a ?b] => destruct (Z.eqb a b); cbn
    end.

(** The handler leaves the frame alone and calls nothing. *)
Lemma except_clause_quiet args err fr :
  snd (fst (except_clause args err fr)) = fr /\
  Forall (fun ev => is_session_call ev = false) (snd (except_clause args err fr)).
Proof.
  unfold except_clause, bind, emit, load_fe_server, load_net_conf, items,
    py_return, ret; cbn.
  case_handler; split; try reflexivity; repeat constructor.
Qed.

(** A turn of the loop is its [with] statement followed by log records and
    prints; afterwards the variables other than [execution_complete] are as
    the [with] statement left them. *)
Lemma loop_body_shape args fr :
  exists tail,
    snd (loop_body args fr) = snd (with_stmt args fr) ++ tail /\
    Forall (fun ev => is_session_call ev = false) tail /\
    net_conf (snd (fst (loop_body args fr))) = net_conf (snd (fst (with_stmt args fr))) /\
    fe_server (snd (fst (loop_body args fr))) = fe_server (snd (fst (with_stmt args fr))) /\
    world (snd (fst (loop_body args fr))) = world (snd (fst (with_stmt args fr))).
Proof.
  destruct (with_stmt args fr) as [[c fr1] ev1] eqn:Hw.
  destruct c as [[]|e|code].
  - rewrite (loop_body_ok _ _ _ _ Hw). exists []. cbn. by rewrite app_nil_r.
  - destruct (is_Exception e) eqn:Hexc.
    + rewrite (loop_body_caught _ _ _ _ _ Hw Hexc).
      destruct (except_clause_quiet args e fr1) as [Hfr Hq].
      destruct (except_clause args e fr1) as [[c2 fr2] ev2].
      cbn [fst snd] in *. subst fr2. by exists ev2.
    + rewrite (loop_body_escapes _ _ _ _ _ Hw Hexc). exists []. cbn.
      by rewrite app_nil_r.
  - exfalso. apply (with_stmt_no_return args fr code). by rewrite Hw.
Qed.

(** *** Facts about traces *)

Lemma last_conf_from_app cur a b :
  last_conf_from cur (a ++ b) = last_conf_from (last_conf_from cur a) b.
Proof. unfold last_conf_from. apply fold_left_app. Qed.

Lemma quiet_conf_update cur ev :
  is_session_call ev = false -> conf_update cur ev = cur.
Proof. by destruct ev. Qed.

Lemma quiet_last_conf cur tail :
  Forall (fun ev => is_session_call ev = false) tail ->
  last_conf_from cur tail = cur.
Proof.
  induction 1 as [|ev tail Hev _ IH]; [done|].
  unfold last_conf_from in *. cbn. by rewrite (quiet_conf_update _ _ Hev).
Qed.

Lemma hints_follow_app cur a b :
  hints_follow cur a ->
  hints_follow (last_conf_from cur a) b ->
  hints_follow cur (a ++ b).
Proof.
  revert cur. induction a as [|ev a IH]; intros cur; cbn; [done|].
  intros [Hev Ha] Hb. split; [done|]. by apply IH.
Qed.

Lemma quiet_hints_follow cur tail :
  Forall (fun ev => is_session_call ev = false) tail ->
  hints_follow cur tail.
Proof.
  induction 1 as [|ev tail Hev _ IH]; cbn; [done|].
  rewrite (quiet_conf_update _ _ Hev). split; [|done]. by destruct ev.
Qed.

Lemma hints_follow_split cur pre (sid : nat) hint res post :
  hints_follow cur (pre ++ EvRunStartup sid hint res :: post) ->
  hint = last_conf_from cur pre.
Proof.
  revert cur. induction pre as [|ev pre IH]; intros cur; cbn.
  - by intros [-> _].
  - intros [_ Hrest]. by apply IH.
Qed.

Lemma last_entered_from_app cur a b :
  last_entered_from cur (a ++ b) = last_entered_from (last_entered_from cur a) b.
Proof. unfold last_entered_from. apply fold_left_app. Qed.

Lemma quiet_last_entered cur tail :
  Forall (fun ev => is_session_call ev = false) tail ->
  last_entered_from cur tail = cur.
Proof.
  induction 1 as [|ev tail Hev _ IH]; [done|].
  unfold last_entered_from in *. cbn. by destruct ev.
Qed.

Lemma quiet_not_phase tail :
  Forall (fun ev => is_session_call ev = false) tail ->
  Forall (fun ev => is_phase_call ev = false) tail.
Proof. intros Hq. eapply Forall_impl; [exact Hq|]. by intros []. Qed.

Lemma quiet_stops_at_failure tail :
  Forall (fun ev => is_session_call ev = false) tail ->
  stops_at_failure tail.
Proof.
  induction 1 as [|ev tail Hev _ IH]; cbn; [done|].
  split; [|done]. by destruct ev as [| | | | | | |? []|? []|].
Qed.

Lemma stops_at_failure_quiet a tail :
  stops_at_failure a ->
  Forall (fun ev => is_session_call ev = false) tail ->
  stops_at_failure (a ++ tail).
Proof.
  intros Ha Hq. induction a as [|ev a IH]; cbn.
  - by apply quiet_stops_at_failure.
  - destruct Ha as [Hev Ha]. split; [|by apply IH].
    intros Hfail. apply Forall_app. split; [by apply Hev|by apply quiet_not_phase].
Qed.

Lemma stops_at_failure_split pre ev post :
  stops_at_failure (pre ++ ev :: post) ->
  is_failed_phase_call ev = true ->
  Forall (fun ev' => is_phase_call ev' = false) post.
Proof.
  induction pre as [|ev0 pre IH]; cbn.
  - intros [Hev _]. exact Hev.
  - intros [_ Hrest]. by apply IH.
Qed.

Lemma quiet_no_exit tail :
  Forall (fun ev => is_session_call ev = false) tail ->
  forall p, (forall ev, p ev = true -> is_session_call ev = true) ->
  List.filter p tail = [].
Proof.
  induction 1 as [|ev tail Hev _ IH]; intros p Hp; cbn; [done|].
  destruct (p ev) eqn:Hpev.
  - apply Hp in Hpev. congruence.
  - by apply IH.
Qed.

Lemma is_exit_session_call ev : is_exit ev = true -> is_session_call ev = true.
Proof. by destruct ev. Qed.

Lemma is_exit_of_session_call (sid : nat) ev :
  is_exit_of sid ev = true -> is_session_call ev = true.
Proof. by destruct ev. Qed.

(** *** The events of the [with] statement *)

Lemma with_stmt_hints args fr :
  hints_follow (net_conf fr) (snd (with_stmt args fr)) /\
  net_conf (snd (fst (with_stmt args fr))) =
    last_conf_from (net_conf fr) (snd (with_stmt args fr)).
Proof. run_with_stmt; cbn; repeat split. Qed.

Lemma with_stmt_stops args fr : stops_at_failure (snd (with_stmt args fr)).
Proof.
  run_with_stmt; cbn; repeat split; try discriminate; intros _; repeat constructor.
Qed.

(** How a failed phase leaves the [with] statement: the teardown of the
    session bound to [fe_server] sees the exception, which then reaches the
    [try] statement unless the teardown suppresses it or raises itself. *)
Lemma failed_phase_outcome args fr ev e :
  In ev (snd (with_stmt args fr)) ->
  raised_by ev = Some e ->
  exists cm res,
    fe_server (snd (fst (with_stmt args fr))) = Some cm /\
    In (EvExit (fe_id cm) (Some e) res) (snd (with_stmt args fr)) /\
    fst (fst (with_stmt args fr)) =
      match res with
      | Returns true => Normal tt
      | Returns false => Raise e
      | Raises e2 => Raise e2
      end.
Proof.
  run_with_stmt; cbn; intros Hin Hraised;
    repeat (destruct Hin as [<-|Hin]; [try discriminate|]); try (by destruct Hin);
    injection Hraised as <-;
    do 2 eexists; (split; [reflexivity|]);
    (split; [cbn; repeat (first [left; reflexivity | right]) | reflexivity]).
Qed.

Lemma with_stmt_released args fr cm w1 w2 :
  new_LauncherFrontEnd args (world fr) = (Returns cm, w1) ->
  fe_enter cm w1 = (Returns tt, w2) ->
  length (List.filter is_exit (snd (with_stmt args fr))) = 1%nat /\
  length (List.filter (is_exit_of (fe_id cm)) (snd (with_stmt args fr))) = 1%nat.
Proof.
  intros Hnew Henter.
  unfold with_stmt, py_with, with_body, bind, call, load_fe_server, load_net_conf,
    store_net_conf, store_fe_server, set_world; cbn.
  rewrite Hnew; cbn. rewrite Henter; cbn.
  repeat run_call; try case_suppress; cbn; by rewrite Nat.eqb_refl.
Qed.

Lemma with_stmt_binds args fr :
  (fe_server (snd (fst (with_stmt args fr))) = fe_server fr /\
   exists e, fst (fst (with_stmt args fr)) = Raise e)
  \/ (exists cm exc res,
        fe_server (snd (fst (with_stmt args fr))) = Some cm /\
        In (EvExit (fe_id cm) exc res) (snd (with_stmt args fr))).
Proof.
  run_with_stmt; cbn;
    first [ left; split; [reflexivity | eexists; reflexivity]
          | right; do 3 eexists; split; [reflexivity | cbn; tauto] ].
Qed.

Lemma with_stmt_entered args fr :
  fe_id <$> fe_server (snd (fst (with_stmt args fr))) =
    last_entered_from (fe_id <$> fe_server fr) (snd (with_stmt args fr)).
Proof. run_with_stmt; reflexivity. Qed.

Lemma with_stmt_not_constructed args fr err w1 :
  new_LauncherFrontEnd args (world fr) = (Raises err, w1) ->
  with_stmt args fr = (Raise err, set_world fr w1, [EvConstruct (Raises err)]).
Proof.
  intros Hnew. unfold with_stmt, py_with, bind, call. by rewrite Hnew.
Qed.

(** *** Claims about one attempt *)

(** The body of the [with] statement calls no [__exit__], and it raises
    exactly when one of its phase calls raised, with that exception. *)
Lemma with_body_outcome fr :
  Forall (fun ev => is_exit ev = false) (snd (with_body fr)) /\
  match fst (fst (with_body fr)) with
  | Raise e =>
      fe_server fr = None \/ head (omap raised_by (snd (with_body fr))) = Some e
  | _ => head (omap raised_by (snd (with_body fr))) = None
  end.
Proof.
  destruct fr as [done nc [fe|] w0];
    unfold with_body, bind, call, load_fe_server, load_net_conf, store_net_conf,
      set_world; cbn; [|split; [constructor | by left]].
  repeat run_call; split; first [by repeat constructor | by right | reflexivity].
Qed.

(** Python's [with], once the manager is there and entered: the body runs
    in the frame where [fe_server] names the manager, then [__exit__] is
    called on the manager with the exception the body let out, in the world
    the body left, and the statement ends in the world [__exit__] leaves. *)
Lemma py_with_releases (cm_expr : M (LauncherFrontEnd World)) (body : M unit)
    fr cm fr0 ev0 w2 :
  cm_expr fr = (Normal cm, fr0, ev0) ->
  fe_enter cm (world fr0) = (Returns tt, w2) ->
  let entered :=
    {| execution_complete := execution_complete fr0; net_conf := net_conf fr0;
       fe_server := Some cm; world := w2 |} in
  let exc := match fst (fst (body entered)) with Raise e => Some e | _ => None end in
  let teardown := fe_exit cm exc (world (snd (fst (body entered)))) in
  snd (py_with cm_expr body fr) =
    ev0 ++ [EvEnter (fe_id cm) (Returns tt)] ++ snd (body entered)
    ++ [EvExit (fe_id cm) exc (fst teardown)] /\
  world (snd (fst (py_with cm_expr body fr))) = snd teardown.
Proof.
  intros Hcm Henter. cbn zeta.
  unfold py_with, bind, call, store_fe_server, set_world. rewrite Hcm. cbn.
  rewrite Henter. cbn.
  match goal with
  | |- context [body ?f] => destruct (body f) as [[c frb] evb]; cbn
  end.
  destruct c as [[]|e|code]; cbn; run_call; try case_suppress;
    by rewrite <- ?app_assoc.
Qed.

Lemma with_stmt_releases args fr cm w1 w2 :
  new_LauncherFrontEnd args (world fr) = (Returns cm, w1) ->
  fe_enter cm w1 = (Returns tt, w2) ->
  let entered :=
    {| execution_complete := execution_complete fr; net_conf := net_conf fr;
       fe_server := Some cm; world := w2 |} in
  let body := with_body entered in
  let exc := match fst (fst body) with Raise e => Some e | _ => None end in
  let teardown := fe_exit cm exc (world (snd (fst body))) in
  snd (with_stmt args fr) =
    [EvConstruct (Returns (fe_id cm)); EvEnter (fe_id cm) (Returns tt)]
    ++ snd body ++ [EvExit (fe_id cm) exc (fst teardown)] /\
  world (snd (fst (with_stmt args fr))) = snd teardown.
Proof.
  intros Hnew Henter. unfold with_stmt.
  apply (py_with_releases _ with_body fr cm (set_world fr w1)
           [EvConstruct (Returns (fe_id cm))] w2); [|exact Henter].
  unfold call. by rewrite Hnew.
Qed.

(** C8.  In a turn of the loop whose session was acquired (the constructor
    and [__enter__] returned), the teardown runs exactly once, on that
    session, whatever the three phases and the teardown itself do.  It is
    the call [fe_exit cm exc] made in the world the phases left, where
    [exc] is the exception raised by the phase that failed and [None] when
    all three returned; the turn records this call and no other
    [__exit__], calls nothing after it, and ends in the world the teardown
    leaves. *)
Theorem session_released_once args fr cm w1 w2 :
  new_LauncherFrontEnd args (world fr) = (Returns cm, w1) ->
  fe_enter cm w1 = (Returns tt, w2) ->
  let entered :=
    {| execution_complete := execution_complete fr; net_conf := net_conf fr;
       fe_server := Some cm; world := w2 |} in
  let body := with_body entered in
  let exc := head (omap raised_by (snd body)) in
  let teardown := fe_exit cm exc (world (snd (fst body))) in
  (exists tail,
     snd (loop_body args fr) =
       [EvConstruct (Returns (fe_id cm)); EvEnter (fe_id cm) (Returns tt)]
       ++ snd body ++ EvExit (fe_id cm) exc (fst teardown) :: tail /\
     Forall (fun ev => is_session_call ev = false) tail) /\
  Forall (fun ev => is_exit ev = false) (snd body) /\
  world (snd (fst (loop_body args fr))) = snd teardown /\
  length (List.filter is_exit (snd (loop_body args fr))) = 1%nat /\
  length (List.filter (is_exit_of (fe_id cm)) (snd (loop_body args fr))) = 1%nat.
Proof.
  intros Hnew Henter entered body exc teardown.
  destruct (with_stmt_releases args fr cm w1 w2 Hnew Henter) as [Hev Hworld].
  cbn zeta in Hev, Hworld. fold entered in Hev, Hworld. fold body in Hev, Hworld.
  destruct (with_body_outcome entered) as [Hnoexit Hexc]. fold body in Hnoexit, Hexc.
  assert (Hsame : match fst (fst body) with Raise e => Some e | _ => None end = exc).
  { subst exc. destruct (fst (fst body)) as [[]|e|code]; [done| |done].
    by destruct Hexc as [? | ->]. }
  rewrite Hsame in Hev, Hworld. fold teardown in Hev, Hworld.
  destruct (with_stmt_released args fr cm w1 w2 Hnew Henter) as [Hall Hcm].
  destruct (loop_body_shape args fr) as (tail & Hbody & Hq & _ & _ & Hw).
  split; [|split; [exact Hnoexit|split]].
  - exists tail. split; [|exact Hq]. rewrite Hbody, Hev. by rewrite <- !app_assoc.
  - by rewrite Hw.
  - rewrite Hbody, !List.filter_app, !length_app, Hall, Hcm.
    rewrite (quiet_no_exit tail Hq is_exit is_exit_session_call).
    by rewrite (quiet_no_exit tail Hq _ (is_exit_of_session_call (fe_id cm))).
Qed.

(** C10.  In one turn of the loop no phase is called after a phase call
    that raised: after a failed [run_startup] neither [run_app] nor
    [run_msg_server], after a failed [run_app] no [run_msg_server]. *)
Theorem no_phase_after_failed_phase args fr pre ev post :
  snd (loop_body args fr) = pre ++ ev :: post ->
  is_failed_phase_call ev = true ->
  Forall (fun ev' => is_phase_call ev' = false) post.
Proof.
  intros Hsplit. apply stops_at_failure_split with (pre := pre).
  rewrite <- Hsplit.
  destruct (loop_body_shape args fr) as (tail & -> & Hq & _).
  apply stops_at_failure_quiet; [apply with_stmt_stops | exact Hq].
Qed.

(** *** The hint carried from attempt to attempt *)

Lemma loop_body_hints args fr :
  hints_follow (net_conf fr) (snd (loop_body args fr)) /\
  net_conf (snd (fst (loop_body args fr))) =
    last_conf_from (net_conf fr) (snd (loop_body args fr)).
Proof.
  destruct (with_stmt_hints args fr) as [Hh Hnc].
  destruct (loop_body_shape args fr) as (tail & -> & Hq & -> & _).
  split.
  - apply hints_follow_app; [done | by apply quiet_hints_follow].
  - by rewrite last_conf_from_app, (quiet_last_conf _ _ Hq).
Qed.

Lemma while_loop_hints args fuel fr :
  hints_follow (net_conf fr) (snd (while_loop args fuel fr)).
Proof.
  revert fr. induction fuel as [|fuel IH]; intros fr.
  - cbn. by destruct (execution_complete fr).
  - destruct (execution_complete fr) eqn:Hrun.
    + by rewrite (while_loop_done _ _ _ Hrun).
    + rewrite (while_loop_step _ _ _ Hrun).
      destruct (loop_body_hints args fr) as [Hh Hnc].
      destruct (loop_body args fr) as [[c fr1] ev1]. cbn [fst snd] in *.
      destruct c as [[]|e|code]; [|done..].
      specialize (IH fr1).
      destruct (while_loop args fuel fr1) as [[c2 fr2] ev2]. cbn [fst snd] in *.
      apply hints_follow_app; [done | by rewrite <- Hnc].
Qed.

Lemma main_hints args fuel w : hints_follow PyNone (snd (main args fuel w)).
Proof.
  rewrite main_on_record; cbv beta iota.
  set (args_map := match args with Some a => a | None => get_cli_args end).
  pose proof (while_loop_hints args_map fuel (initial_frame w)) as Hloop.
  destruct (while_loop args_map fuel (initial_frame w)) as [[c fr] ev].
  cbn [fst snd net_conf initial_frame] in Hloop.
  assert (Hpre : hints_follow PyNone (prelude ++ ev)).
  { apply hints_follow_app; [cbn; tauto | exact Hloop]. }
  destruct c as [[[]|e|code]|]; cbn [snd]; try exact Hpre.
  rewrite app_assoc. apply hints_follow_app; [exact Hpre | cbn; tauto].
Qed.

(** Along every run of [main], the hint recorded with a call of
    [run_startup] is the value returned by the last phase call that
    returned before it, [None] when there is none. *)
Lemma startup_records_follow args fuel w pre sid hint res post :
  snd (main args fuel w) = pre ++ EvRunStartup sid hint res :: post ->
  hint = last_conf pre.
Proof.
  intros Hsplit. apply hints_follow_split with (sid := sid) (res := res) (post := post).
  rewrite <- Hsplit. apply main_hints.
Qed.

(** At the start of every turn [net_conf] holds what the last phase call
    that returned handed back, in whichever attempt that was, and [None]
    when no phase has returned yet. *)
Lemma reaches_conf args w n fr tr :
  loop_reaches args w n fr tr -> net_conf fr = last_conf tr.
Proof.
  induction 1 as [|n fr tr fr1 ev Hreach IH Hrun Hbody Hflag]; [done|].
  unfold last_conf in *. rewrite last_conf_from_app, <- IH.
  destruct (loop_body_hints args fr) as [_ Hnc]. by rewrite Hbody in Hnc.
Qed.

(** How an attempt starts once its session is acquired: [run_startup] is
    called on the new session, in the world [__enter__] left, with the
    carried [net_conf]; what follows is decided by that very call. *)
Lemma with_stmt_starts args fr cm w1 w2 :
  new_LauncherFrontEnd args (world fr) = (Returns cm, w1) ->
  fe_enter cm w1 = (Returns tt, w2) ->
  exists rest,
    snd (with_stmt args fr) =
      EvConstruct (Returns (fe_id cm)) :: EvEnter (fe_id cm) (Returns tt)
      :: EvRunStartup (fe_id cm) (net_conf fr) (fst (run_startup cm (net_conf fr) w2))
      :: match fst (run_startup cm (net_conf fr) w2) with
         | Returns _ =>
             EvRunApp (fe_id cm) (fst (run_app cm (snd (run_startup cm (net_conf fr) w2))))
         | Raises e =>
             EvExit (fe_id cm) (Some e)
               (fst (fe_exit cm (Some e) (snd (run_startup cm (net_conf fr) w2))))
         end
      :: rest.
Proof.
  intros Hnew Henter.
  unfold with_stmt, py_with, with_body, bind, call, load_fe_server, load_net_conf,
    store_net_conf, store_fe_server, set_world; cbn.
  rewrite Hnew; cbn. rewrite Henter; cbn.
  repeat run_call; try case_suppress; cbn; eexists; reflexivity.
Qed.

(** A run of [main] that has fuel for the turn numbered [n] goes through
    the events of that turn. *)
Lemma main_runs_turn args w n fr tr k :
  loop_reaches args w n fr tr ->
  exists rest,
    snd (main (Some args) (n + S k) w) = prelude ++ tr ++ snd (loop_body args fr) ++ rest.
Proof.
  intros Hreach. rewrite main_on_record; cbv beta iota.
  rewrite (while_loop_reaches _ _ _ _ _ Hreach (S k)).
  rewrite (while_loop_step _ _ _ (reaches_running _ _ _ _ _ Hreach)).
  destruct (loop_body args fr) as [[c fr1] ev1]. cbn [snd].
  destruct c as [[]|e|code].
  - destruct (while_loop args k fr1) as [[c2 fr2] ev2].
    destruct c2 as [[[]|e|code]|]; cbn [snd].
    + exists (ev2 ++ [EvLog LogExiting]). by rewrite <- !app_assoc.
    + by exists ev2.
    + by exists ev2.
    + by exists ev2.
  - exists []. by rewrite app_nil_r.
  - exists []. by rewrite app_nil_r.
Qed.

(** C7.  In any turn the loop reaches, the first one and every retry, once
    the session is acquired [run_startup] is called on it with the hint
    [last_conf tr]: the very object returned by the last phase call that
    returned in the attempts before, [None] when no phase has returned yet.
    The call recorded is the call made: its outcome is the outcome of
    [run_startup cm hint] in the world [__enter__] left, and the turn goes
    on from the world this call leaves, with [run_app] when it returned and
    with the teardown when it raised.  Every run of [main] that has fuel
    for this turn goes through these events. *)
Theorem startup_hint_is_last_configuration args w n fr tr cm w1 w2 k :
  loop_reaches args w n fr tr ->
  new_LauncherFrontEnd args (world fr) = (Returns cm, w1) ->
  fe_enter cm w1 = (Returns tt, w2) ->
  let hint := last_conf tr in
  let started := run_startup cm hint w2 in
  let next :=
    match fst started with
    | Returns _ => EvRunApp (fe_id cm) (fst (run_app cm (snd started)))
    | Raises e => EvExit (fe_id cm) (Some e) (fst (fe_exit cm (Some e) (snd started)))
    end in
  let turn :=
    [EvConstruct (Returns (fe_id cm)); EvEnter (fe_id cm) (Returns tt);
     EvRunStartup (fe_id cm) hint (fst started); next] in
  net_conf fr = hint /\
  (exists rest, snd (loop_body args fr) = turn ++ rest) /\
  (exists rest, snd (main (Some args) (n + S k) w) = prelude ++ tr ++ turn ++ rest).
Proof.
  intros Hreach Hnew Henter hint started next turn.
  pose proof (reaches_conf _ _ _ _ _ Hreach) as Hconf. fold hint in Hconf.
  destruct (with_stmt_starts args fr cm w1 w2 Hnew Henter) as [rest Hw].
  rewrite Hconf in Hw. fold started in Hw. fold next in Hw.
  destruct (loop_body_shape args fr) as (tail & Hev & _).
  assert (Hturn : snd (loop_body args fr) = turn ++ rest ++ tail).
  { by rewrite Hev, Hw. }
  split; [exact Hconf|]. split; [by exists (rest ++ tail)|].
  destruct (main_runs_turn args w n fr tr k Hreach) as [more Hmain].
  exists ((rest ++ tail) ++ more). rewrite Hmain, Hturn.
  by rewrite <- !app_assoc.
Qed.

(** *** The session left over from the previous attempt *)

(** A turn that ends normally leaves [fe_server] bound, to a session that
    this turn released or to the one the name held before. *)
Lemma loop_body_binds args fr fr1 ev :
  loop_body args fr = (Normal tt, fr1, ev) ->
  exists prev,
    fe_server fr1 = Some prev /\
    ((exists exc res, In (EvExit (fe_id prev) exc res) ev) \/ fe_server fr = Some prev).
Proof.
  intros Hbody.
  destruct (loop_body_shape args fr) as (tail & Hev & _ & _ & Hfe & _).
  rewrite Hbody in Hev, Hfe. cbn [fst snd] in Hev, Hfe.
  destruct (with_stmt_binds args fr) as [[Hsame [e He]]|(cm & exc & res & Hcm & Hin)].
  - destruct (with_stmt args fr) as [[c fr'] ev1] eqn:Hw. cbn [fst snd] in *. subst c.
    destruct (fe_server fr) as [prev|] eqn:Hold.
    + exists prev. split; [congruence | by right].
    + exfalso. destruct (is_Exception e) eqn:Hexc.
      * rewrite (loop_body_caught _ _ _ _ _ Hw Hexc) in Hbody.
        rewrite except_unbound in Hbody by congruence. discriminate.
      * rewrite (loop_body_escapes _ _ _ _ _ Hw Hexc) in Hbody. discriminate.
  - exists cm. split; [congruence|]. left. exists exc, res.
    rewrite Hev. apply in_or_app. by left.
Qed.

Lemma reaches_released args w n fr tr :
  loop_reaches args w n fr tr ->
  forall s, fe_server fr = Some s -> exists exc res, In (EvExit (fe_id s) exc res) tr.
Proof.
  induction 1 as [|n fr tr fr1 ev Hreach IH Hrun Hbody Hflag]; intros s Hs.
  - discriminate.
  - destruct (loop_body_binds _ _ _ _ Hbody) as (prev & Hprev & [(exc & res & Hin)|Hold]).
    + assert (s = prev) as -> by congruence.
      exists exc, res. apply in_or_app. by right.
    + assert (s = prev) as -> by congruence.
      destruct (IH _ Hold) as (exc & res & Hin).
      exists exc, res. apply in_or_app. by left.
Qed.

Lemma loop_body_entered args fr :
  fe_id <$> fe_server (snd (fst (loop_body args fr))) =
    last_entered_from (fe_id <$> fe_server fr) (snd (loop_body args fr)).
Proof.
  destruct (loop_body_shape args fr) as (tail & -> & Hq & _ & -> & _).
  by rewrite last_entered_from_app, <- with_stmt_entered, (quiet_last_entered _ _ Hq).
Qed.

Lemma reaches_entered args w n fr tr :
  loop_reaches args w n fr tr -> fe_id <$> fe_server fr = last_entered tr.
Proof.
  induction 1 as [|n fr tr fr1 ev Hreach IH Hrun Hbody Hflag]; [done|].
  unfold last_entered in *. rewrite last_entered_from_app, <- IH.
  pose proof (loop_body_entered args fr) as He. by rewrite Hbody in He.
Qed.

Lemma reaches_bound args w n fr tr :
  loop_reaches args w (S n) fr tr -> exists prev, fe_server fr = Some prev.
Proof.
  inversion 1 as [|n' fr0 tr0 fr1 ev Hreach Hrun Hbody Hflag]; subst.
  destruct (loop_body_binds _ _ _ _ Hbody) as (prev & Hprev & _). eauto.
Qed.

(** C9.  At the start of the second or a later turn, [fe_server] is still
    bound to the session entered last, which has been released.  If the
    constructor then raises an [Exception], the handler runs with that
    stale session: it returns [LAUNCHER_FAIL_EXIT] when the stale session
    is not resilient, and takes the node count when it is. *)
Theorem stale_session_decides args w n fr tr err w1 :
  loop_reaches args w (S n) fr tr ->
  new_LauncherFrontEnd args (world fr) = (Raises err, w1) ->
  is_Exception err = true ->
  exists prev exc res,
    fe_server fr = Some prev /\
    last_entered tr = Some (fe_id prev) /\
    In (EvExit (fe_id prev) exc res) tr /\
    fe_server (set_world fr w1) = Some prev /\
    loop_body args fr =
      (let '(c, fr2, ev2) := except_clause args err (set_world fr w1) in
       (c, fr2, EvConstruct (Raises err) :: ev2)) /\
    (resilient prev = false ->
     loop_body args fr =
       (Return LAUNCHER_FAIL_EXIT, set_world fr w1,
        [EvConstruct (Raises err); EvLog (LogException err)])) /\
    (resilient prev = true ->
     forall r, net_conf fr = PyDict r ->
     In (EvLog (LogAvailNodes (avail_nodes_of (dict_content w1 r))))
        (snd (loop_body args fr))).
Proof.
  intros Hreach Hnew Hexc.
  destruct (reaches_bound _ _ _ _ _ Hreach) as [prev Hprev].
  destruct (reaches_released _ _ _ _ _ Hreach _ Hprev) as (exc & res & Hin).
  pose proof (with_stmt_not_constructed _ _ _ _ Hnew) as Hw.
  pose proof (loop_body_caught _ _ _ _ _ Hw Hexc) as Hbody.
  exists prev, exc, res. repeat split; try done.
  - rewrite <- (reaches_entered _ _ _ _ _ Hreach). by rewrite Hprev.
  - intros Hres. rewrite Hbody.
    by rewrite (except_not_resilient args err (set_world fr w1) prev Hprev Hres).
  - intros Hres r Hnc. rewrite Hbody.
    rewrite (except_classifies args err (set_world fr w1) prev r Hprev Hres Hnc).
    cbn zeta. cbn [world set_world].
    destruct (exhaust_resources args);
      match goal with |- context [Z.eqb ?a ?b] => destruct (Z.eqb a b) end;
      cbn; tauto.
Qed.

(** ** Further properties of the loop *)

(** An exception that leaves the turn numbered [n] leaves [main]. *)
Lemma main_raises_from_turn args w n fr tr e fr1 ev k :
  loop_reaches args w n fr tr ->
  execution_complete fr = false ->
  loop_body args fr = (Raise e, fr1, ev) ->
  main (Some args) (n + S k) w = (Some (Raise e), fr1, prelude ++ tr ++ ev).
Proof.
  intros Hreach Hrun Hbody. rewrite main_on_record; cbv beta iota.
  rewrite (while_loop_reaches _ _ _ _ _ Hreach (S k)).
  by rewrite (while_loop_step _ _ _ Hrun), Hbody.
Qed.

(** A turn whose [with] statement ends normally is the last one. *)
Lemma main_succeeds_from_turn args w n fr tr fr1 ev k :
  loop_reaches args w n fr tr ->
  execution_complete fr = false ->
  with_stmt args fr = (Normal tt, fr1, ev) ->
  main (Some args) (n + S k) w =
    (Some (Return LAUNCHER_SUCCESS_EXIT),
     {| execution_complete := true; net_conf := net_conf fr1;
        fe_server := fe_server fr1; world := world fr1 |},
     prelude ++ (tr ++ ev) ++ [EvLog LogExiting]).
Proof.
  intros Hreach Hrun Hw. rewrite main_on_record; cbv beta iota.
  rewrite (while_loop_reaches _ _ _ _ _ Hreach (S k)).
  rewrite (while_loop_step _ _ _ Hrun), (loop_body_ok _ _ _ _ Hw).
  rewrite while_loop_done by done. by rewrite app_nil_r.
Qed.

(** X1.  In any turn the loop reaches: when the constructor, [__enter__],
    the three phases and [__exit__] all return, [main] returns
    [LAUNCHER_SUCCESS_EXIT] at the end of this turn.  Each phase was called
    once, in order, [run_startup] with the carried [net_conf]; [net_conf]
    ends as what [run_msg_server] returned; the answer of [__exit__] is
    ignored; the last record logged is the exit notice. *)
Theorem successful_attempt_returns_success
    args w n fr tr cm w1 w2 v1 w3 v2 w4 v3 w5 b w6 k :
  loop_reaches args w n fr tr ->
  execution_complete fr = false ->
  new_LauncherFrontEnd args (world fr) = (Returns cm, w1) ->
  fe_enter cm w1 = (Returns tt, w2) ->
  run_startup cm (net_conf fr) w2 = (Returns v1, w3) ->
  run_app cm w3 = (Returns v2, w4) ->
  run_msg_server cm w4 = (Returns v3, w5) ->
  fe_exit cm None w5 = (Returns b, w6) ->
  main (Some args) (n + S k) w =
    (Some (Return LAUNCHER_SUCCESS_EXIT),
     {| execution_complete := true; net_conf := v3; fe_server := Some cm; world := w6 |},
     prelude ++
     (tr ++
      [EvConstruct (Returns (fe_id cm)); EvEnter (fe_id cm) (Returns tt);
       EvRunStartup (fe_id cm) (net_conf fr) (Returns v1);
       EvRunApp (fe_id cm) (Returns v2);
       EvRunMsgServer (fe_id cm) (Returns v3);
       EvExit (fe_id cm) None (Returns b)]) ++ [EvLog LogExiting]).
Proof.
  intros Hreach Hrun Hnew Henter Hstartup Happ Hmsg Hexit.
  assert (Hw : with_stmt args fr =
    (Normal tt,
     {| execution_complete := execution_complete fr; net_conf := v3;
        fe_server := Some cm; world := w6 |},
     [EvConstruct (Returns (fe_id cm)); EvEnter (fe_id cm) (Returns tt);
      EvRunStartup (fe_id cm) (net_conf fr) (Returns v1);
      EvRunApp (fe_id cm) (Returns v2);
      EvRunMsgServer (fe_id cm) (Returns v3);
      EvExit (fe_id cm) None (Returns b)])).
  { unfold with_stmt, py_with, with_body, bind, call, load_fe_server, load_net_conf,
      store_net_conf, store_fe_server, set_world; cbn.
    rewrite Hnew; cbn. rewrite Henter; cbn. rewrite Hstartup; cbn.
    rewrite Happ; cbn. rewrite Hmsg; cbn. by rewrite Hexit. }
  exact (main_succeeds_from_turn _ _ _ _ _ _ _ k Hreach Hrun Hw).
Qed.

(** X5.  In any turn the loop reaches: an exception that is not an instance
    of [Exception] and leaves the [with] statement leaves [main] as it is;
    the handler does not run, nothing more is logged, and the frame is as
    the attempt left it. *)
Theorem base_exception_leaves_main args w n fr tr e fr1 ev1 k :
  loop_reaches args w n fr tr ->
  execution_complete fr = false ->
  with_stmt args fr = (Raise e, fr1, ev1) ->
  is_Exception e = false ->
  main (Some args) (n + S k) w = (Some (Raise e), fr1, prelude ++ tr ++ ev1).
Proof.
  intros Hreach Hrun Hw Hexc.
  exact (main_raises_from_turn _ _ _ _ _ _ _ _ k Hreach Hrun
           (loop_body_escapes _ _ _ _ _ Hw Hexc)).
Qed.

(** *** The order of the phases *)

Lemma phases_called_app a b : phases_called (a ++ b) = phases_called a ++ phases_called b.
Proof. apply omap_app. Qed.

Lemma quiet_phases_called tail :
  Forall (fun ev => is_session_call ev = false) tail -> phases_called tail = [].
Proof.
  induction 1 as [|ev tail Hev _ IH]; [done|].
  unfold phases_called in *. cbn. rewrite IH. by destruct ev.
Qed.

Lemma with_stmt_phase_order args fr :
  phases_called (snd (with_stmt args fr)) `prefix_of` [Startup; App; MsgServer].
Proof.
  run_with_stmt; cbn;
    first [ by exists [Startup; App; MsgServer]
          | by exists [App; MsgServer]
          | by exists [MsgServer]
          | by exists [] ].
Qed.

(** X2.  In one turn of the loop the phases are called in the order
    [run_startup], [run_app], [run_msg_server], none twice and none
    skipped: the calls made are an initial part of that sequence. *)
Theorem phases_run_in_order args fr :
  phases_called (snd (loop_body args fr)) `prefix_of` [Startup; App; MsgServer].
Proof.
  destruct (loop_body_shape args fr) as (tail & -> & Hq & _).
  rewrite phases_called_app, (quiet_phases_called _ Hq), app_nil_r.
  apply with_stmt_phase_order.
Qed.

(** *** A session that is not acquired *)

(** X6.  When the constructor or [__enter__] raises, the turn calls no phase
    and no [__exit__] (a manager whose [__enter__] raised is not torn
    down), [fe_server] keeps the binding it had before the turn, and the
    exception reaches the [try] statement; if it is an [Exception] and
    [fe_server] was never bound, the turn ends with [UnboundLocalError]. *)
Theorem failed_acquisition_is_not_released args fr err :
  acquisition_fails args fr err ->
  fst (fst (with_stmt args fr)) = Raise err /\
  fe_server (snd (fst (loop_body args fr))) = fe_server fr /\
  phases_called (snd (loop_body args fr)) = [] /\
  List.filter is_exit (snd (loop_body args fr)) = [] /\
  (is_Exception err = true -> fe_server fr = None ->
   fst (fst (loop_body args fr)) = Raise (UnboundLocalError "fe_server")).
Proof.
  unfold acquisition_fails. intros Hacq.
  assert (Hw : fst (fst (with_stmt args fr)) = Raise err /\
               fe_server (snd (fst (with_stmt args fr))) = fe_server fr /\
               phases_called (snd (with_stmt args fr)) = [] /\
               List.filter is_exit (snd (with_stmt args fr)) = []).
  { revert Hacq.
    unfold with_stmt, py_with, with_body, bind, call, load_fe_server, load_net_conf,
      store_net_conf, store_fe_server, set_world; cbn.
    destruct (new_LauncherFrontEnd args (world fr)) as [[cm|e] w1]; cbn.
    - destruct (fe_enter cm w1) as [[[]|e] w2]; cbn; [discriminate|].
      by intros [= ->].
    - by intros ->. }
  destruct Hw as (Hc & Hfe & Hph & Hex).
  destruct (loop_body_shape args fr) as (tail & Hev & Hq & _ & Hfe' & _).
  repeat split.
  - exact Hc.
  - by rewrite Hfe'.
  - by rewrite Hev, phases_called_app, Hph, (quiet_phases_called _ Hq).
  - rewrite Hev, List.filter_app, Hex.
    by rewrite (quiet_no_exit tail Hq is_exit is_exit_session_call).
  - intros Hexc Hunbound.
    destruct (with_stmt args fr) as [[c fr1] ev1] eqn:Hws. cbn in Hc, Hfe. subst c.
    rewrite (loop_body_caught _ _ _ _ _ Hws Hexc).
    by rewrite except_unbound by congruence.
Qed.

(** *** One session at a time *)

Lemma open_session_from_app cur a b :
  open_session_from cur (a ++ b) = open_session_from (open_session_from cur a) b.
Proof. unfold open_session_from. apply fold_left_app. Qed.

Lemma quiet_session_update cur ev :
  is_session_call ev = false -> session_update cur ev = cur /\ call_allowed cur ev.
Proof. by destruct ev. Qed.

Lemma quiet_open_session cur tail :
  Forall (fun ev => is_session_call ev = false) tail ->
  open_session_from cur tail = cur /\ bracketed cur tail.
Proof.
  induction 1 as [|ev tail Hev _ IH]; [done|].
  destruct (quiet_session_update cur ev Hev) as [Hupd Hok].
  unfold open_session_from in *. cbn. rewrite Hupd. by destruct IH.
Qed.

Lemma bracketed_app cur a b :
  bracketed cur a ->
  bracketed (open_session_from cur a) b ->
  bracketed cur (a ++ b).
Proof.
  revert cur. induction a as [|ev a IH]; intros cur; cbn; [done|].
  intros [Hev Ha] Hb. split; [done|]. by apply IH.
Qed.

Lemma bracketed_split cur pre ev post :
  bracketed cur (pre ++ ev :: post) -> call_allowed (open_session_from cur pre) ev.
Proof.
  revert cur. induction pre as [|ev0 pre IH]; intros cur; cbn.
  - by intros [? _].
  - intros [_ Hrest]. by apply IH.
Qed.

Lemma with_stmt_bracketed args fr :
  bracketed None (snd (with_stmt args fr)) /\
  open_session_from None (snd (with_stmt args fr)) = None.
Proof. run_with_stmt; cbn; repeat split. Qed.

Lemma loop_body_bracketed args fr :
  bracketed None (snd (loop_body args fr)) /\
  open_session_from None (snd (loop_body args fr)) = None.
Proof.
  destruct (with_stmt_bracketed args fr) as [Hb Ho].
  destruct (loop_body_shape args fr) as (tail & -> & Hq & _).
  destruct (quiet_open_session None tail Hq) as [Hto Htb].
  split.
  - apply bracketed_app; [done | by rewrite Ho].
  - by rewrite open_session_from_app, Ho.
Qed.

Lemma while_loop_bracketed args fuel fr :
  bracketed None (snd (while_loop args fuel fr)) /\
  open_session_from None (snd (while_loop args fuel fr)) = None.
Proof.
  revert fr. induction fuel as [|fuel IH]; intros fr.
  - cbn. by destruct (execution_complete fr).
  - destruct (execution_complete fr) eqn:Hrun.
    + by rewrite (while_loop_done _ _ _ Hrun).
    + rewrite (while_loop_step _ _ _ Hrun).
      destruct (loop_body_bracketed args fr) as [Hb Ho].
      destruct (loop_body args fr) as [[c fr1] ev1]. cbn [fst snd] in *.
      destruct c as [[]|e|code]; [|done..].
      destruct (IH fr1) as [Hb2 Ho2].
      destruct (while_loop args fuel fr1) as [[c2 fr2] ev2]. cbn [fst snd] in *.
      split.
      * apply bracketed_app; [done | by rewrite Ho].
      * by rewrite open_session_from_app, Ho.
Qed.

Lemma main_bracketed args fuel w :
  bracketed None (snd (main args fuel w)) /\
  open_session_from None (snd (main args fuel w)) = None.
Proof.
  rewrite main_on_record; cbv beta iota.
  set (args_map := match args with Some a => a | None => get_cli_args end).
  destruct (while_loop_bracketed args_map fuel (initial_frame w)) as [Hb Ho].
  destruct (while_loop args_map fuel (initial_frame w)) as [[c fr] ev].
  cbn [fst snd] in *.
  assert (Hpre : bracketed None (prelude ++ ev) /\
                 open_session_from None (prelude ++ ev) = None).
  { split.
    - apply bracketed_app; [cbn; tauto | exact Hb].
    - by rewrite open_session_from_app. }
  destruct c as [[[]|e|code]|]; cbn [snd]; try exact Hpre.
  destruct Hpre as [Hpb Hpo]. rewrite app_assoc. split.
  - apply bracketed_app; [exact Hpb | by rewrite Hpo].
  - by rewrite open_session_from_app, Hpo.
Qed.

(** X3.  Along every run of [main] at most one session is open at a time:
    the constructor and [__enter__] are called only while no session is
    open, and each phase and each [__exit__] is called on the session that
    is open at that point. *)
Theorem sessions_never_overlap args fuel w pre ev post :
  snd (main args fuel w) = pre ++ ev :: post ->
  call_allowed (open_session pre) ev.
Proof.
  intros Hsplit. apply bracketed_split with (post := post).
  rewrite <- Hsplit. apply main_bracketed.
Qed.

(** *** No bound on the attempts *)

(** X7.  The loop has no retry limit.  If [P] holds when the loop starts
    and, from every frame where [P] holds, the attempt fails with an
    [Exception], the session is resilient, [net_conf] is a dict whose count
    is not the one the handler aborts on, and [P] holds again afterwards,
    then [main] never returns, whatever the number of turns. *)
Theorem retries_are_unbounded args w (P : Frame World -> Prop) :
  P (initial_frame w) ->
  (forall fr, P fr ->
     exists err fr1 ev1 fe r,
       with_stmt args fr = (Raise err, fr1, ev1) /\
       is_Exception err = true /\
       fe_server fr1 = Some fe /\
       resilient fe = true /\
       net_conf fr1 = PyDict r /\
       (if exhaust_resources args
        then avail_nodes_of (dict_content (world fr1) r) <> 0%nat
        else Z.of_nat (avail_nodes_of (dict_content (world fr1) r))
             <> node_count args - 1) /\
       P fr1) ->
  forall fuel, fst (fst (main (Some args) fuel w)) = None.
Proof.
  intros Hstart Hstep fuel.
  assert (Hloop : forall fr, P fr -> execution_complete fr = false ->
                    fst (fst (while_loop args fuel fr)) = None).
  { induction fuel as [|fuel IH]; intros fr HP Hrun.
    - cbn. by rewrite Hrun.
    - rewrite (while_loop_step _ _ _ Hrun).
      destruct (Hstep fr HP) as (err & fr1 & ev1 & fe & r & Hw & Hexc & Hfe & Hres & Hnc & Hgo & HP1).
      rewrite (resilient_failure_classified args _ _ _ _ _ _ Hw Hexc Hfe Hres Hnc).
      cbn zeta.
      assert (Hflag : execution_complete fr1 = false).
      { pose proof (with_stmt_keeps_flag args fr) as Hk. rewrite Hw in Hk. cbn in Hk.
        congruence. }
      specialize (IH fr1 HP1 Hflag).
      destruct (exhaust_resources args).
      + destruct (Z.eqb_spec (Z.of_nat (avail_nodes_of (dict_content (world fr1) r))) 0);
          [lia|].
        by destruct (while_loop args fuel fr1) as [[c2 fr2] ev2].
      + destruct (Z.eqb_spec (Z.of_nat (avail_nodes_of (dict_content (world fr1) r)))
                    (node_count args - 1)); [done|].
        by destruct (while_loop args fuel fr1) as [[c2 fr2] ev2]. }
  rewrite main_on_record; cbv beta iota. specialize (Hloop (initial_frame w) Hstart eq_refl).
  destruct (while_loop args fuel (initial_frame w)) as [[c fr] ev].
  cbn in Hloop. by subst c.
Qed.

(** *** A failure that [__exit__] suppresses *)

Lemma suppressed_failure_ends_normally args fr ev e sid :
  In ev (snd (with_stmt args fr)) ->
  raised_by ev = Some e ->
  In (EvExit sid (Some e) (Returns true)) (snd (with_stmt args fr)) ->
  fst (fst (with_stmt args fr)) = Normal tt.
Proof.
  run_with_stmt; cbn; intros Hin Hraised Hexit;
    repeat (destruct Hin as [<-|Hin]; [try discriminate|]); try (by destruct Hin);
    try reflexivity;
    repeat (destruct Hexit as [Hexit|Hexit]; [try discriminate|]);
    by destruct Hexit.
Qed.

(** X8.  In any turn the loop reaches: when a phase raises and [__exit__]
    answers true for that exception, the failure is suppressed: the handler
    does not run, the turn counts as a success and [main] returns
    [LAUNCHER_SUCCESS_EXIT], with [net_conf] as the last phase that returned
    left it. *)
Theorem suppressed_failure_counts_as_success args w n fr tr ev e sid k :
  loop_reaches args w n fr tr ->
  execution_complete fr = false ->
  In ev (snd (with_stmt args fr)) ->
  raised_by ev = Some e ->
  In (EvExit sid (Some e) (Returns true)) (snd (with_stmt args fr)) ->
  fst (fst (main (Some args) (n + S k) w)) = Some (Return LAUNCHER_SUCCESS_EXIT) /\
  snd (main (Some args) (n + S k) w) =
    prelude ++ (tr ++ snd (with_stmt args fr)) ++ [EvLog LogExiting] /\
  net_conf (snd (fst (main (Some args) (n + S k) w))) =
    last_conf_from (net_conf fr) (snd (with_stmt args fr)).
Proof.
  intros Hreach Hrun Hin Hraised Hexit.
  pose proof (suppressed_failure_ends_normally _ _ _ _ _ Hin Hraised Hexit) as Hc.
  destruct (with_stmt_hints args fr) as [_ Hnc].
  destruct (with_stmt args fr) as [[c fr1] ev1] eqn:Hw. cbn [fst snd] in *. subst c.
  rewrite (main_succeeds_from_turn _ _ _ _ _ _ _ k Hreach Hrun Hw). cbn [fst snd].
  repeat split. exact Hnc.
Qed.

(** *** What [main] prints *)

Lemma print_at_end_split (tr' pre post : list Event) msg m :
  Forall (fun ev => is_print ev = false) tr' ->
  tr' ++ [EvPrint m] = pre ++ EvPrint msg :: post ->
  post = [] /\ msg = m /\ pre = tr'.
Proof.
  revert pre. induction tr' as [|ev tr' IH]; intros pre Hno Heq.
  - destruct pre as [|ev0 pre]; cbn in Heq.
    + by injection Heq as -> <-.
    + injection Heq as _ Heq. by destruct pre.
  - apply Forall_cons in Hno as [Hev Hno].
    destruct pre as [|ev0 pre]; cbn in Heq.
    + injection Heq as -> _. discriminate.
    + injection Heq as -> Heq. destruct (IH pre Hno Heq) as (-> & -> & ->). done.
Qed.

Lemma no_print_split (tr pre post : list Event) msg :
  Forall (fun ev => is_print ev = false) tr ->
  tr <> pre ++ EvPrint msg :: post.
Proof.
  intros Hno ->. apply Forall_app in Hno as [_ Hno].
  apply Forall_cons in Hno as [Hev _]. discriminate.
Qed.

Lemma with_stmt_prints_nothing args fr :
  Forall (fun ev => is_print ev = false) (snd (with_stmt args fr)).
Proof. run_with_stmt; cbn; repeat constructor. Qed.

(** A turn prints nothing, or it ends by the two log records of the
    handler, the count logged being the one its mode aborts on, the message
    of the mode, and [return LAUNCHER_FAIL_EXIT]. *)
Lemma loop_body_prints args fr :
  Forall (fun ev => is_print ev = false) (snd (loop_body args fr))
  \/ (exists ev' err avail,
        snd (loop_body args fr) =
          (ev' ++ [EvLog (LogException err); EvLog (LogAvailNodes avail)])
          ++ [EvPrint (abort_message args)] /\
        Forall (fun ev => is_print ev = false) ev' /\
        (if exhaust_resources args then avail = 0%nat
         else Z.of_nat avail = node_count args - 1) /\
        fst (fst (loop_body args fr)) = Return LAUNCHER_FAIL_EXIT).
Proof.
  pose proof (with_stmt_prints_nothing args fr) as Hno.
  destruct (with_stmt args fr) as [[c fr1] ev1] eqn:Hw. cbn [snd] in Hno.
  destruct c as [[]|e|code].
  - left. by rewrite (loop_body_ok _ _ _ _ Hw).
  - destruct (is_Exception e) eqn:Hexc.
    + rewrite (loop_body_caught _ _ _ _ _ Hw Hexc).
      destruct (fe_server fr1) as [fe|] eqn:Hfe.
      * destruct (resilient fe) eqn:Hres.
        -- destruct (net_conf fr1) as [|r] eqn:Hnc.
           ++ rewrite (except_no_conf _ _ _ _ Hfe Hres Hnc). left. cbn.
              apply Forall_app. split; [done | by repeat constructor].
           ++ rewrite (except_classifies _ _ _ _ _ Hfe Hres Hnc). cbn zeta.
              unfold abort_message.
              destruct (exhaust_resources args);
                match goal with
                | |- context [Z.eqb ?a ?b] => destruct (Z.eqb_spec a b) as [Heq|Hne]
                end; cbn [fst snd].
              ** right. eexists ev1, e, _. rewrite !app_assoc.
                 split; [reflexivity|]. split; [done|]. split; [lia | done].
              ** left. apply Forall_app. split; [done | by repeat constructor].
              ** right. eexists ev1, e, _. rewrite !app_assoc.
                 split; [reflexivity|]. split; [done|]. split; done.
              ** left. apply Forall_app. split; [done | by repeat constructor].
        -- rewrite (except_not_resilient _ _ _ _ Hfe Hres). left. cbn.
           apply Forall_app. split; [done | by repeat constructor].
      * rewrite (except_unbound _ _ _ Hfe). left. cbn.
        apply Forall_app. split; [done | by repeat constructor].
    + left. by rewrite (loop_body_escapes _ _ _ _ _ Hw Hexc).
  - exfalso. apply (with_stmt_no_return args fr code). by rewrite Hw.
Qed.

Lemma while_loop_prints args fuel fr :
  Forall (fun ev => is_print ev = false) (snd (while_loop args fuel fr))
  \/ (exists ev' err avail,
        snd (while_loop args fuel fr) =
          (ev' ++ [EvLog (LogException err); EvLog (LogAvailNodes avail)])
          ++ [EvPrint (abort_message args)] /\
        Forall (fun ev => is_print ev = false) ev' /\
        (if exhaust_resources args then avail = 0%nat
         else Z.of_nat avail = node_count args - 1) /\
        fst (fst (while_loop args fuel fr)) = Some (Return LAUNCHER_FAIL_EXIT)).
Proof.
  revert fr. induction fuel as [|fuel IH]; intros fr.
  - left. cbn. by destruct (execution_complete fr).
  - destruct (execution_complete fr) eqn:Hrun.
    + left. by rewrite (while_loop_done _ _ _ Hrun).
    + rewrite (while_loop_step _ _ _ Hrun).
      pose proof (loop_body_prints args fr) as Hbody.
      destruct (loop_body args fr) as [[c fr1] ev1]. cbn [fst snd] in Hbody.
      destruct c as [[]|e|code].
      * destruct Hbody as [Hno|(ev' & err & avail & _ & _ & _ & Habs)]; [|discriminate].
        specialize (IH fr1).
        destruct (while_loop args fuel fr1) as [[c2 fr2] ev2]. cbn [fst snd] in *.
        destruct IH as [Hno2|(ev' & err & avail & -> & Hno2 & Hcount & ->)].
        -- left. apply Forall_app. by split.
        -- right. exists (ev1 ++ ev'), err, avail. rewrite !app_assoc.
           split; [done|]. split; [|done]. apply Forall_app. by split.
      * destruct Hbody as [Hno|(ev' & err & avail & _ & _ & _ & Habs)];
          [by left | discriminate].
      * cbn [fst snd].
        destruct Hbody as [Hno|(ev' & err & avail & -> & Hno & Hcount & [= ->])];
          [by left|].
        right. by exists ev', err, avail.
Qed.

(** X9.  [main] prints at most once, as its very last action, and only on
    the way the handler takes after it has logged the exception and the
    node count: the print comes right after these two records, the count
    logged is the one the mode aborts on (0 in exhaust mode, [node_count -
    1] otherwise), the message is the one of the mode, and [main] returns
    [LAUNCHER_FAIL_EXIT]. *)
Theorem print_only_before_failure_exit args fuel w pre msg post :
  snd (main (Some args) fuel w) = pre ++ EvPrint msg :: post ->
  post = [] /\
  msg = abort_message args /\
  fst (fst (main (Some args) fuel w)) = Some (Return LAUNCHER_FAIL_EXIT) /\
  exists pre' err avail,
    pre = pre' ++ [EvLog (LogException err); EvLog (LogAvailNodes avail)] /\
    (if exhaust_resources args then avail = 0%nat
     else Z.of_nat avail = node_count args - 1).
Proof.
  rewrite main_on_record; cbv beta iota.
  pose proof (while_loop_prints args fuel (initial_frame w)) as Hloop.
  destruct (while_loop args fuel (initial_frame w)) as [[c fr] ev].
  cbn [fst snd] in Hloop.
  assert (Hpre : Forall (fun ev => is_print ev = false) prelude) by (by repeat constructor).
  destruct Hloop as [Hno|(ev' & err & avail & -> & Hno & Hcount & ->)].
  - intros Hsplit. exfalso.
    destruct c as [[[]|e|code]|]; cbn [snd] in Hsplit;
      (eapply no_print_split; [|exact Hsplit]);
      repeat (apply Forall_app; split); try done; by repeat constructor.
  - cbn [fst snd]. rewrite app_assoc. intros Hsplit.
    apply print_at_end_split in Hsplit as (-> & -> & ->).
    + repeat split. exists (prelude ++ ev'), err, avail. by rewrite <- app_assoc.
    + repeat (apply Forall_app; split); try done; by repeat constructor.
Qed.

(** *** More on the node count *)

Lemma avail_nodes_delete (nc : gmap string NodeDescriptor) idx node :
  nc !! idx = Some node ->
  avail_nodes_of nc =
    if state_in (state node) healthy_states && negb (String.eqb idx "f")
    then S (avail_nodes_of (delete idx nc))
    else avail_nodes_of (delete idx nc).
Proof.
  intros Hin. rewrite <- (insert_delete_id nc idx node Hin) at 1.
  apply avail_nodes_insert, lookup_delete_eq.
Qed.

Lemma avail_nodes_overwrite (nc : gmap string NodeDescriptor) idx node :
  avail_nodes_of (<[idx := node]> nc) =
    if state_in (state node) healthy_states && negb (String.eqb idx "f")
    then S (avail_nodes_of (delete idx nc))
    else avail_nodes_of (delete idx nc).
Proof.
  rewrite <- (insert_delete_eq nc idx node).
  apply avail_nodes_insert, lookup_delete_eq.
Qed.

(** X10.  The entry of the front end never counts: the count is the same
    with the entry ['f'] in any state, and without it. *)
Theorem front_end_never_counted (nc : gmap string NodeDescriptor) node :
  avail_nodes_of (<["f"%string := node]> nc) = avail_nodes_of nc /\
  avail_nodes_of (delete "f"%string nc) = avail_nodes_of nc.
Proof.
  assert (Hdel : avail_nodes_of (delete "f"%string nc) = avail_nodes_of nc).
  { destruct (nc !! "f"%string) as [y|] eqn:Hf.
    - rewrite (avail_nodes_delete nc "f" y Hf). cbn. by rewrite andb_false_r.
    - by rewrite delete_id. }
  split; [|exact Hdel].
  rewrite avail_nodes_overwrite. cbn. by rewrite andb_false_r.
Qed.

(** X11.  A worker that leaves the states [ACTIVE] and [IDLE] lowers the
    count by exactly one, whatever the other entries are. *)
Theorem lost_worker_lowers_count (nc : gmap string NodeDescriptor) idx node node' :
  idx <> "f"%string ->
  nc !! idx = Some node ->
  state node = ACTIVE \/ state node = IDLE ->
  state node' <> ACTIVE /\ state node' <> IDLE ->
  avail_nodes_of nc = S (avail_nodes_of (<[idx := node']> nc)).
Proof.
  intros Hidx Hin Hup Hdown.
  rewrite (avail_nodes_delete nc idx node Hin), avail_nodes_overwrite.
  destruct (state_in (state node) healthy_states && negb (String.eqb idx "f")) eqn:Hc.
  - destruct (state_in (state node') healthy_states && negb (String.eqb idx "f")) eqn:Hc';
      [|done].
    apply counts_reflect in Hc' as [_ [?|?]]; cbn in *; by destruct Hdown.
  - exfalso. assert (counts (idx, node)) as Hcounts by (by split).
    apply counts_reflect in Hcounts. congruence.
Qed.

(** X12.  The count is the number of entries of the dict whose index is not
    ['f'] and whose state is [ACTIVE] or [IDLE]; it does not depend on the
    order in which the dict is walked. *)
Theorem avail_nodes_is_number_of_healthy_workers (nc : gmap string NodeDescriptor) :
  avail_nodes_of nc = size (filter counts nc).
Proof.
  induction nc as [|idx node nc Hfresh IH] using map_ind.
  - by rewrite avail_nodes_empty, map_filter_empty, map_size_empty.
  - rewrite (avail_nodes_insert nc idx node Hfresh), map_filter_insert.
    destruct (state_in (state node) healthy_states && negb (String.eqb idx "f")) eqn:Hc.
    + apply counts_reflect in Hc. rewrite decide_True by done.
      rewrite map_size_insert_None; [by rewrite IH|].
      apply map_lookup_filter_None. by left.
    + rewrite decide_False.
      * by rewrite delete_id, IH.
      * intros Hcounts. apply counts_reflect in Hcounts. congruence.
Qed.

(** *** A new session for every attempt *)

Lemma with_stmt_constructs_once args fr :
  exists rest,
    snd (with_stmt args fr) =
      EvConstruct (match fst (new_LauncherFrontEnd args (world fr)) with
                   | Returns fe => Returns (fe_id fe)
                   | Raises e => Raises e
                   end) :: rest /\
    Forall (fun ev => is_construct ev = false) rest /\
    match fst (new_LauncherFrontEnd args (world fr)) with
    | Returns cm => Forall (fun ev => session_of ev = Some (fe_id cm)) rest
    | Raises _ => rest = []
    end.
Proof.
  run_with_stmt; cbn; eexists; (split; [reflexivity|]); split;
    first [reflexivity | by repeat constructor].
Qed.

Lemma quiet_session_of tail :
  Forall (fun ev => is_session_call ev = false) tail ->
  Forall (fun ev => is_construct ev = false /\ session_of ev = None) tail.
Proof. intros Hq. eapply Forall_impl; [exact Hq|]. by intros []. Qed.

(** X14.  Every turn of the loop begins by calling the constructor, in the
    world in which the turn starts, and calls it only once.  Every other
    call of the turn ([__enter__], the phases, [__exit__]) is made on the
    session this call returned, none on a session of an earlier attempt;
    when the constructor raises, the turn makes no other call. *)
Theorem each_turn_constructs_one_session args fr :
  exists rest,
    snd (loop_body args fr) =
      EvConstruct (match fst (new_LauncherFrontEnd args (world fr)) with
                   | Returns fe => Returns (fe_id fe)
                   | Raises e => Raises e
                   end) :: rest /\
    Forall (fun ev => is_construct ev = false) rest /\
    match fst (new_LauncherFrontEnd args (world fr)) with
    | Returns cm =>
        Forall (fun ev => is_session_call ev = true -> session_of ev = Some (fe_id cm)) rest
    | Raises _ => Forall (fun ev => is_session_call ev = false) rest
    end.
Proof.
  destruct (with_stmt_constructs_once args fr) as (rest & Hev & Hno & Hon).
  destruct (loop_body_shape args fr) as (tail & -> & Hq & _).
  pose proof (quiet_session_of tail Hq) as Hqs.
  exists (rest ++ tail). rewrite Hev. split; [done|]. split.
  - apply Forall_app. split; [done|].
    eapply Forall_impl; [exact Hqs|]. by intros ev [? _].
  - destruct (fst (new_LauncherFrontEnd args (world fr))) as [cm|e].
    + apply Forall_app. split.
      * eapply Forall_impl; [exact Hon|]. by intros ev ? _.
      * eapply Forall_impl; [exact Hq|]. intros ev -> ?. discriminate.
    + by subst rest.
Qed.

(** *** The script entry point *)

Lemma main_returns_status args fuel w code :
  fst (fst (main args fuel w)) = Some (Return code) ->
  code = LAUNCHER_SUCCESS_EXIT \/ code = LAUNCHER_FAIL_EXIT.
Proof.
  rewrite main_on_record; cbv beta iota.
  set (args_map := match args with Some a => a | None => get_cli_args end).
  pose proof (while_loop_returns args_map fuel (initial_frame w)) as Hloop.
  destruct (while_loop args_map fuel (initial_frame w)) as [[c0 fr] ev].
  cbn [fst] in Hloop.
  destruct c0 as [[[]|e|code0]|]; cbn; intros [= <-]; [by left | right; by apply Hloop].
Qed.

Lemma main_ends_by_return_or_raise args fuel w :
  fst (fst (main args fuel w)) <> Some (Normal tt).
Proof.
  rewrite main_on_record; cbv beta iota.
  destruct (while_loop _ fuel (initial_frame w)) as [[c0 fr] ev].
  by destruct c0 as [[[]|e|code]|].
Qed.

(** X13.  Run as a script, the module calls [exit] at most once, as its
    last action after [set_procname] and everything [main] did, and only
    with the value [main] returned, which is [LAUNCHER_SUCCESS_EXIT] or
    [LAUNCHER_FAIL_EXIT], never [None]; when an exception leaves [main],
    [exit] is not called. *)
Theorem script_exits_with_main_status fuel w ecode :
  In (PrExit ecode) (snd (script_entry fuel w)) ->
  exists code,
    ecode = Some code /\
    (code = LAUNCHER_SUCCESS_EXIT \/ code = LAUNCHER_FAIL_EXIT) /\
    fst (fst (main None fuel w)) = Some (Return code) /\
    fst (script_entry fuel w) = Some (ExitCalled (Some code)) /\
    snd (script_entry fuel w) =
      PrSetProcname :: map PrMain (snd (main None fuel w)) ++ [PrExit (Some code)].
Proof.
  unfold script_entry.
  pose proof (main_returns_status None fuel w) as Hstatus.
  pose proof (main_ends_by_return_or_raise None fuel w) as Hnormal.
  destruct (main None fuel w) as [[c fr] ev]. cbn [fst snd] in *.
  assert (Hnone : ~ In (PrExit ecode) (PrSetProcname :: map PrMain ev)).
  { intros [Habs|Habs]; [discriminate|].
    apply in_map_iff in Habs as (ev0 & Habs & _). discriminate. }
  destruct c as [[[]|e|code]|]; cbn [fst snd]; intros Hin;
    try done; try (by destruct Hnone).
  assert (ecode = Some code) as ->.
  { destruct Hin as [Habs|Hin]; [discriminate|].
    apply in_app_or in Hin as [Hin|[[= ->]|[]]]; [|done].
    apply in_map_iff in Hin as (ev0 & Habs & _). discriminate. }
  exists code. repeat split. by apply Hstatus.
Qed.

End Properties.

(** * The theorems at work on scripted runs *)

(** C5 at work: a non-resilient session whose application fails while all
    three workers are healthy. *)
Lemma non_resilient_failure_aborts_witness :
  avail_nodes_of three_up = 3%nat /\
  resilient (scripted_session 0 (app_fails false crash)) = false /\
  main (H := scripted script_non_resilient (threshold_args 3))
    (Some (threshold_args 3)) 1 (sim_start three_up) =
    (Some (Return 1),
     frame_after_with script_non_resilient (threshold_args 3) three_up,
     prelude ++ [] ++
     events_of_with script_non_resilient (threshold_args 3) three_up
       ++ [EvLog (LogException crash)]).
Proof.
  split; [vm_compute; reflexivity|]. split; [reflexivity|].
  apply (non_resilient_failure_aborts
           (H := scripted script_non_resilient (threshold_args 3))
           (threshold_args 3) (sim_start three_up) 0 (first_frame three_up) [] crash
           (frame_after_with script_non_resilient (threshold_args 3) three_up)
           (events_of_with script_non_resilient (threshold_args 3) three_up)
           (scripted_session 0 (app_fails false crash)) 0%nat);
    first [apply reaches_first | reflexivity].
Defined.

(** C2 at work: three workers requested, worker 2 goes down while the
    application runs; two are left and [main] returns the failure status. *)
Lemma threshold_mode_decision_witness :
  Z.of_nat (size (filter counts two_up)) = node_count (threshold_args 3) - 1 /\
  fst (fst (main (H := scripted script_degraded (threshold_args 3))
              (Some (threshold_args 3)) 1 (sim_start three_up))) = Some (Return 1).
Proof.
  split; [vm_compute; reflexivity|].
  destruct (threshold_mode_decision
              (H := scripted script_degraded (threshold_args 3))
              (threshold_args 3) (sim_start three_up) 0 (first_frame three_up) [] crash
              (frame_after_with script_degraded (threshold_args 3) three_up)
              (events_of_with script_degraded (threshold_args 3) three_up)
              (scripted_session 0 (app_degrades true two_up crash)) 0%nat
              (reaches_first _ _)
              eq_refl eq_refl eq_refl eq_refl eq_refl eq_refl eq_refl)
    as (_ & Habort & _).
  exact (f_equal (fun x => fst (fst x)) (Habort ltac:(vm_compute; reflexivity) 0%nat)).
Defined.

(** C6 at work: the same run in exhaust mode goes on to a second turn. *)
Lemma exhaust_mode_decision_witness :
  size (filter counts two_up) = 2%nat /\
  loop_reaches (H := scripted script_degraded (exhaust_args 3))
    (exhaust_args 3) (sim_start three_up) 1
    (frame_after_with script_degraded (exhaust_args 3) three_up)
    ([] ++ events_of_with script_degraded (exhaust_args 3) three_up
        ++ [EvLog (LogException crash); EvLog (LogAvailNodes 2)]).
Proof.
  split; [vm_compute; reflexivity|].
  destruct (exhaust_mode_decision
              (H := scripted script_degraded (exhaust_args 3))
              (exhaust_args 3) (sim_start three_up) 0 (first_frame three_up) [] crash
              (frame_after_with script_degraded (exhaust_args 3) three_up)
              (events_of_with script_degraded (exhaust_args 3) three_up)
              (scripted_session 0 (app_degrades true two_up crash)) 0%nat
              (reaches_first _ _)
              eq_refl eq_refl eq_refl eq_refl eq_refl eq_refl eq_refl)
    as (_ & _ & Hretry).
  destruct Hretry as [_ Hnext]; [vm_compute; lia|]. exact Hnext.
Defined.

(** C4 at work, on a plain dict that has no key ['node_count']: worker 2
    goes down while the application of a resilient session runs, the
    handler logs the count and stops at line 62. *)
Lemma main_exit_status_witness :
  fst (fst (main (H := scripted script_degraded (without "node_count" (dict_of (threshold_args 3))))
              None 1 (sim_start three_up))) = Some (Raise (KeyError "node_count")) /\
  exists n fr tr err fr1 ev1,
    loop_reaches (H := scripted script_degraded (without "node_count" (dict_of (threshold_args 3))))
      (without "node_count" (dict_of (threshold_args 3))) (sim_start three_up) n fr tr /\
    fst (fst (loop_body (H := scripted script_degraded
                                 (without "node_count" (dict_of (threshold_args 3))))
                (without "node_count" (dict_of (threshold_args 3))) fr))
      = Raise (KeyError "node_count") /\
    with_stmt (H := scripted script_degraded (without "node_count" (dict_of (threshold_args 3))))
      (without "node_count" (dict_of (threshold_args 3))) fr = (Raise err, fr1, ev1) /\
    ((is_Exception err = false /\ KeyError "node_count" = err) \/
     (is_Exception err = true /\
      handler_stuck (without "node_count" (dict_of (threshold_args 3))) fr1 = true)).
Proof.
  assert (Hend :
    fst (fst (main (H := scripted script_degraded
                            (without "node_count" (dict_of (threshold_args 3))))
                None 1 (sim_start three_up))) = Some (Raise (KeyError "node_count")))
    by (vm_compute; reflexivity).
  split; [exact Hend|].
  destruct (main_exit_status
              (H := scripted script_degraded (without "node_count" (dict_of (threshold_args 3))))
              None (sim_start three_up)) as [Hends _].
  destruct (Hends 1%nat _ Hend)
    as [Habs|[Habs|[[Habs _]|(e & n & fr & tr & err & fr1 & ev1 & [= <-] & Hrest)]]];
    try discriminate.
  by exists n, fr, tr, err, fr1, ev1.
Defined.

(** C4 as stated fails: a [KeyboardInterrupt] raised by [run_app] is not
    caught by [except Exception] and leaves [main], which returns neither
    status. *)
Lemma interrupt_escapes_main :
  simulate script_interrupt (exhaust_args 3) three_up 1 =
    (Some (Raise interrupt),
     prelude ++
     [EvConstruct (Returns 0%nat); EvEnter 0 (Returns tt);
      EvRunStartup 0 PyNone (Returns (PyDict 0));
      EvRunApp 0 (Raises interrupt);
      EvExit 0 (Some interrupt) (Returns false)]) /\
  fst (simulate script_interrupt (exhaust_args 3) three_up 1) <> Some (Return 0) /\
  fst (simulate script_interrupt (exhaust_args 3) three_up 1) <> Some (Return 1).
Proof. vm_compute. repeat split; discriminate. Qed.

(** The second turn of [script_retry] is reached after a retry. *)
Lemma script_retry_reaches_second_turn :
  loop_reaches (H := scripted script_retry (exhaust_args 3))
    (exhaust_args 3) (sim_start three_up) 1
    (frame_after_turn script_retry (exhaust_args 3) three_up)
    ([] ++ events_of_turn script_retry (exhaust_args 3) three_up).
Proof.
  apply (reaches_next (H := scripted script_retry (exhaust_args 3))
           (exhaust_args 3) (sim_start three_up) 0 (first_frame three_up) []).
  - apply reaches_first.
  - reflexivity.
  - vm_compute. reflexivity.
  - reflexivity.
Defined.

(** C7 at work: the first session of [script_retry] returned dict 5 from
    [run_startup] before its application failed; the second session is
    started with dict 5. *)
Lemma startup_hint_is_last_configuration_witness :
  events_of_turn script_retry (exhaust_args 3) three_up =
    [EvConstruct (Returns 0%nat); EvEnter 0 (Returns tt);
     EvRunStartup 0 PyNone (Returns (PyDict 5));
     EvRunApp 0 (Raises crash);
     EvExit 0 (Some crash) (Returns false);
     EvLog (LogException crash); EvLog (LogAvailNodes 3)] /\
  net_conf (frame_after_turn script_retry (exhaust_args 3) three_up) = PyDict 5 /\
  exists rest,
    snd (main (H := scripted script_retry (exhaust_args 3))
           (Some (exhaust_args 3)) 2 (sim_start three_up)) =
      prelude ++ ([] ++ events_of_turn script_retry (exhaust_args 3) three_up) ++
      [EvConstruct (Returns 1%nat); EvEnter 1 (Returns tt);
       EvRunStartup 1 (PyDict 5) (Returns (PyDict 0));
       EvRunApp 1 (Returns (PyDict 0))] ++ rest.
Proof.
  split; [vm_compute; reflexivity|].
  destruct (startup_hint_is_last_configuration
              (H := scripted script_retry (exhaust_args 3))
              (exhaust_args 3) (sim_start three_up) 1
              (frame_after_turn script_retry (exhaust_args 3) three_up)
              ([] ++ events_of_turn script_retry (exhaust_args 3) three_up)
              (scripted_session 1 (good_session true))
              {| sessions := 2; heap := heap_of three_up |}
              {| sessions := 2; heap := heap_of three_up |} 0%nat
              script_retry_reaches_second_turn eq_refl eq_refl)
    as (Hconf & _ & Hmain).
  split; [exact Hconf | exact Hmain].
Defined.

(** C8 at work: the message server fails; the teardown is called once,
    with the failure, after the three phase calls. *)
Lemma session_released_once_witness :
  (exists tail,
     events_of_turn script_msg_fails (threshold_args 3) three_up =
       [EvConstruct (Returns 0%nat); EvEnter 0 (Returns tt)]
       ++ [EvRunStartup 0 PyNone (Returns (PyDict 0));
           EvRunApp 0 (Returns (PyDict 0));
           EvRunMsgServer 0 (Raises crash)]
       ++ EvExit 0 (Some crash) (Returns false) :: tail /\
     Forall (fun ev => is_session_call ev = false) tail) /\
  length (List.filter is_exit (events_of_turn script_msg_fails (threshold_args 3) three_up))
    = 1%nat.
Proof.
  destruct (session_released_once
              (H := scripted script_msg_fails (threshold_args 3))
              (threshold_args 3) (first_frame three_up)
              (scripted_session 0 (msg_fails false crash))
              {| sessions := 1; heap := heap_of three_up |}
              {| sessions := 1; heap := heap_of three_up |}
              eq_refl eq_refl) as (Hturn & _ & _ & Hall & _).
  split; [exact Hturn | exact Hall].
Defined.

(** C10 at work: after the failed [run_startup] come the teardown and a log
    record. *)
Lemma no_phase_after_failed_phase_witness :
  events_of_turn script_startup_fails (threshold_args 3) three_up =
    [EvConstruct (Returns 0%nat); EvEnter 0 (Returns tt)]
    ++ EvRunStartup 0 PyNone (Raises crash)
    :: [EvExit 0 (Some crash) (Returns false); EvLog (LogException crash)] /\
  Forall (fun ev' => is_phase_call ev' = false)
    [EvExit 0 (Some crash) (Returns false); EvLog (LogException crash)].
Proof.
  assert (Hturn :
    events_of_turn script_startup_fails (threshold_args 3) three_up =
      [EvConstruct (Returns 0%nat); EvEnter 0 (Returns tt)]
      ++ EvRunStartup 0 PyNone (Raises crash)
      :: [EvExit 0 (Some crash) (Returns false); EvLog (LogException crash)])
    by (vm_compute; reflexivity).
  split; [exact Hturn|].
  exact (no_phase_after_failed_phase
           (H := scripted script_startup_fails (threshold_args 3))
           (threshold_args 3) (first_frame three_up) _ _ _ Hturn eq_refl).
Defined.

(** C9 at work: the second constructor raises after a resilient first
    session was released. *)
Lemma stale_session_decides_witness :
  loop_reaches (H := scripted script_stale (exhaust_args 3))
    (exhaust_args 3) (sim_start three_up) 1
    (frame_after_turn script_stale (exhaust_args 3) three_up)
    ([] ++ events_of_turn script_stale (exhaust_args 3) three_up) /\
  exists prev exc res,
    fe_server (frame_after_turn script_stale (exhaust_args 3) three_up) = Some prev /\
    last_entered ([] ++ events_of_turn script_stale (exhaust_args 3) three_up)
      = Some (fe_id prev) /\
    In (EvExit (fe_id prev) exc res)
       ([] ++ events_of_turn script_stale (exhaust_args 3) three_up) /\
    fe_server
      (set_world (frame_after_turn script_stale (exhaust_args 3) three_up)
         {| sessions := 2; heap := heap_of three_up |}) = Some prev /\
    loop_body (H := scripted script_stale (exhaust_args 3)) (exhaust_args 3)
      (frame_after_turn script_stale (exhaust_args 3) three_up) =
      (let '(c, fr2, ev2) :=
         except_clause (H := scripted script_stale (exhaust_args 3)) (exhaust_args 3)
           refused
           (set_world (frame_after_turn script_stale (exhaust_args 3) three_up)
              {| sessions := 2; heap := heap_of three_up |}) in
       (c, fr2, EvConstruct (Raises refused) :: ev2)) /\
    (resilient prev = false ->
     loop_body (H := scripted script_stale (exhaust_args 3)) (exhaust_args 3)
       (frame_after_turn script_stale (exhaust_args 3) three_up) =
       (Return 1,
        set_world (frame_after_turn script_stale (exhaust_args 3) three_up)
          {| sessions := 2; heap := heap_of three_up |},
        [EvConstruct (Raises refused); EvLog (LogException refused)])) /\
    (resilient prev = true ->
     forall r,
       net_conf (frame_after_turn script_stale (exhaust_args 3) three_up) = PyDict r ->
       In (EvLog (LogAvailNodes (avail_nodes_of (heap_of three_up r))))
          (snd (loop_body (H := scripted script_stale (exhaust_args 3)) (exhaust_args 3)
                  (frame_after_turn script_stale (exhaust_args 3) three_up)))).
Proof.
  assert (Hreach :
    loop_reaches (H := scripted script_stale (exhaust_args 3))
      (exhaust_args 3) (sim_start three_up) 1
      (frame_after_turn script_stale (exhaust_args 3) three_up)
      ([] ++ events_of_turn script_stale (exhaust_args 3) three_up)).
  { apply (reaches_next (H := scripted script_stale (exhaust_args 3))
             (exhaust_args 3) (sim_start three_up) 0 (first_frame three_up) []).
    - apply reaches_first.
    - reflexivity.
    - vm_compute. reflexivity.
    - reflexivity. }
  split; [exact Hreach|].
  exact (stale_session_decides (H := scripted script_stale (exhaust_args 3))
           (exhaust_args 3) (sim_start three_up) 0
           (frame_after_turn script_stale (exhaust_args 3) three_up)
           ([] ++ events_of_turn script_stale (exhaust_args 3) three_up)
           refused {| sessions := 2; heap := heap_of three_up |}
           Hreach eq_refl eq_refl).
Defined.

(** * The loop need not terminate *)

(** In exhaust mode, resilient sessions whose application fails every time
    while the workers stay healthy keep the loop turning. *)
Lemma unending_turn (fr : Frame SimWorld) :
  execution_complete fr = false ->
  heap (world fr) = heap_of three_up ->
  exists fr1 ev1,
    loop_body (H := unending (app_fails true crash) (exhaust_args 3)) (exhaust_args 3) fr
      = (Normal tt, fr1, ev1) /\
    execution_complete fr1 = false /\
    heap (world fr1) = heap_of three_up.
Proof.
  destruct fr as [done nc fs [n h]]. cbn. intros -> ->.
  set (env := unending (app_fails true crash) (exhaust_args 3)).
  set (fr := {| execution_complete := false; net_conf := nc; fe_server := fs;
                world := {| sessions := n; heap := heap_of three_up |} |}).
  pose proof (resilient_failure_classified (H := env) (exhaust_args 3) fr crash
                (snd (fst (with_stmt (H := env) (exhaust_args 3) fr)))
                (snd (with_stmt (H := env) (exhaust_args 3) fr))
                (scripted_session n (app_fails true crash)) 0%nat
                eq_refl eq_refl eq_refl eq_refl eq_refl) as Hbody.
  cbn zeta in Hbody. cbn [exhaust_resources exhaust_args] in Hbody.
  replace (avail_nodes_of _) with 3%nat in Hbody by (vm_compute; reflexivity).
  change (Z.of_nat 3 =? 0) with false in Hbody. cbv iota in Hbody.
  eexists _, _. split; [exact Hbody|]. split; reflexivity.
Qed.

Lemma unending_loop fuel (fr : Frame SimWorld) :
  execution_complete fr = false ->
  heap (world fr) = heap_of three_up ->
  fst (fst (while_loop (H := unending (app_fails true crash) (exhaust_args 3))
              (exhaust_args 3) fuel fr)) = None.
Proof.
  revert fr. induction fuel as [|fuel IH]; intros fr Hrun Hheap.
  - cbn. by rewrite Hrun.
  - rewrite (while_loop_step _ _ _ Hrun).
    destruct (unending_turn fr Hrun Hheap) as (fr1 & ev1 & -> & Hrun1 & Hheap1).
    specialize (IH fr1 Hrun1 Hheap1).
    by destruct (while_loop _ fuel fr1) as [[c2 fr2] ev2].
Qed.

(** Whatever the fuel, [main] is still looping. *)
Lemma main_may_run_forever fuel :
  fst (fst (main (H := unending (app_fails true crash) (exhaust_args 3))
              None fuel (sim_start three_up))) = None.
Proof.
  rewrite main_on_record; cbv beta iota. cbn [get_cli_args unending].
  pose proof (unending_loop fuel (initial_frame (sim_start three_up)) eq_refl eq_refl)
    as Hloop.
  destruct (while_loop _ fuel (initial_frame (sim_start three_up))) as [[c fr] ev].
  cbn in Hloop. by subst c.
Qed.

(** * [args_map] without the keys [main] reads *)

(** Line 21: without ['log_device_level_map'] nothing is set up and
    [KeyError] leaves [main] before the loop. *)
Lemma missing_logging_map_faults :
  simulate script_degraded (without "log_device_level_map" (dict_of (threshold_args 3)))
    three_up 1 =
    (Some (Raise (KeyError "log_device_level_map")), []).
Proof. vm_compute. reflexivity. Qed.

(** Line 58: without ['exhaust_resources'] the handler of a resilient
    session stops after it has logged the count. *)
Lemma missing_exhaust_resources_faults :
  simulate script_degraded (without "exhaust_resources" (dict_of (threshold_args 3)))
    three_up 1 =
    (Some (Raise (KeyError "exhaust_resources")),
     [EvSetupLogging; EvLog LogStart; EvSetHostId; EvLog LogHostId;
      EvLog (LogArg "log_device_level_map"); EvLog (LogArg "node_count");
      EvConstruct (Returns 0%nat); EvEnter 0 (Returns tt);
      EvRunStartup 0 PyNone (Returns (PyDict 0));
      EvRunApp 0 (Raises crash);
      EvExit 0 (Some crash) (Returns false);
      EvLog (LogException crash); EvLog (LogAvailNodes 2)]).
Proof. vm_compute. reflexivity. Qed.

(** Line 62: with [None] under ['node_count'] the item is not logged, and
    in threshold mode the handler stops on [None - 1]; in exhaust mode the
    key is not read and the loop goes on. *)
Lemma null_node_count_faults :
  simulate script_degraded (with_None "node_count" (dict_of (threshold_args 3)))
    three_up 1 =
    (Some (Raise (TypeError "-")),
     [EvSetupLogging; EvLog LogStart; EvSetHostId; EvLog LogHostId;
      EvLog (LogArg "log_device_level_map"); EvLog (LogArg "exhaust_resources");
      EvConstruct (Returns 0%nat); EvEnter 0 (Returns tt);
      EvRunStartup 0 PyNone (Returns (PyDict 0));
      EvRunApp 0 (Raises crash);
      EvExit 0 (Some crash) (Returns false);
      EvLog (LogException crash); EvLog (LogAvailNodes 2)]) /\
  fst (simulate script_degraded (with_None "node_count" (dict_of (exhaust_args 3)))
         three_up 2) = Some (Return 0).
Proof. split; vm_compute; reflexivity. Qed.

(** On the dict a record stands for, [main] runs as on the record. *)
Lemma record_as_dict (script : list SessionScript) (args : Args)
    (nc : NetworkConfiguration) (fuel : nat) :
  simulate script (dict_of args) nc fuel = simulate script args nc fuel.
Proof. reflexivity. Qed.

(** * Where the loop departs from its specification *)

(** C1.  The first, resilient, session fails in [run_startup], so
    [net_conf] is still [None]: the handler calls [None.items()] and
    [AttributeError] leaves [main]; no count is logged, nothing is
    returned. *)
Theorem null_configuration_faults :
  simulate script_startup_fails (exhaust_args 3) three_up 1 =
    (Some (Raise (AttributeError "NoneType" "items")),
     prelude ++
     [EvConstruct (Returns 0%nat); EvEnter 0 (Returns tt);
      EvRunStartup 0 PyNone (Raises crash);
      EvExit 0 (Some crash) (Returns false);
      EvLog (LogException crash)]).
Proof. vm_compute. reflexivity. Qed.

(** C3.  A constructor that raises in the second turn is not fatal: the
    handler takes the node count with the first, stale, session and the
    loop constructs a third session, which here runs to the end.  In the
    first turn the same failure ends [main] with [UnboundLocalError]. *)
Theorem construction_failure_not_fatal :
  simulate script_stale (exhaust_args 3) three_up 3 =
    (Some (Return 0),
     prelude ++
     [EvConstruct (Returns 0%nat); EvEnter 0 (Returns tt);
      EvRunStartup 0 PyNone (Returns (PyDict 0));
      EvRunApp 0 (Raises crash);
      EvExit 0 (Some crash) (Returns false);
      EvLog (LogException crash); EvLog (LogAvailNodes 3);
      EvConstruct (Raises refused);
      EvLog (LogException refused); EvLog (LogAvailNodes 3);
      EvConstruct (Returns 2%nat); EvEnter 2 (Returns tt);
      EvRunStartup 2 (PyDict 0) (Returns (PyDict 0));
      EvRunApp 2 (Returns (PyDict 0));
      EvRunMsgServer 2 (Returns (PyDict 0));
      EvExit 2 None (Returns false);
      EvLog LogExiting]) /\
  simulate script_no_session (exhaust_args 3) three_up 1 =
    (Some (Raise (UnboundLocalError "fe_server")),
     prelude ++ [EvConstruct (Raises refused); EvLog (LogException refused)]).
Proof. split; vm_compute; reflexivity. Qed.

(** * The further properties at work on scripted runs *)

(** X1 at work: the second session of [script_retry] runs to the end. *)
Lemma successful_attempt_returns_success_witness :
  net_conf (frame_after_turn script_retry (exhaust_args 3) three_up) = PyDict 5 /\
  fst (fst (main (H := scripted script_retry (exhaust_args 3))
              (Some (exhaust_args 3)) 2 (sim_start three_up))) = Some (Return 0).
Proof.
  split; [vm_compute; reflexivity|].
  exact (f_equal (fun x => fst (fst x))
           (successful_attempt_returns_success
              (H := scripted script_retry (exhaust_args 3))
              (exhaust_args 3) (sim_start three_up) 1
              (frame_after_turn script_retry (exhaust_args 3) three_up)
              ([] ++ events_of_turn script_retry (exhaust_args 3) three_up)
              (scripted_session 1 (good_session true))
              {| sessions := 2; heap := heap_of three_up |}
              {| sessions := 2; heap := heap_of three_up |}
              (PyDict 0) {| sessions := 2; heap := heap_of three_up |}
              (PyDict 0) {| sessions := 2; heap := heap_of three_up |}
              (PyDict 0) {| sessions := 2; heap := heap_of three_up |}
              false {| sessions := 2; heap := heap_of three_up |} 0%nat
              script_retry_reaches_second_turn
              eq_refl eq_refl eq_refl eq_refl eq_refl eq_refl eq_refl)).
Defined.

(** X5 at work: the interrupt of [script_interrupt] leaves [main]. *)
Lemma base_exception_leaves_main_witness :
  is_Exception interrupt = false /\
  main (H := scripted script_interrupt (exhaust_args 3))
    (Some (exhaust_args 3)) 1 (sim_start three_up) =
    (Some (Raise interrupt),
     frame_after_with script_interrupt (exhaust_args 3) three_up,
     prelude ++ [] ++ events_of_with script_interrupt (exhaust_args 3) three_up).
Proof.
  split; [reflexivity|].
  apply (base_exception_leaves_main
           (H := scripted script_interrupt (exhaust_args 3))
           (exhaust_args 3) (sim_start three_up) 0 (first_frame three_up) [] interrupt
           (frame_after_with script_interrupt (exhaust_args 3) three_up)
           (events_of_with script_interrupt (exhaust_args 3) three_up) 0%nat);
    first [apply reaches_first | reflexivity].
Defined.

(** X6 at work: the session of [script_no_entry] is constructed but not
    entered. *)
Lemma failed_acquisition_is_not_released_witness :
  acquisition_fails (H := scripted script_no_entry (exhaust_args 3))
    (exhaust_args 3) (first_frame three_up) crash /\
  events_of_turn script_no_entry (exhaust_args 3) three_up =
    [EvConstruct (Returns 0%nat); EvEnter 0 (Raises crash); EvLog (LogException crash)] /\
  List.filter is_exit (events_of_turn script_no_entry (exhaust_args 3) three_up) = [] /\
  fst (fst (loop_body (H := scripted script_no_entry (exhaust_args 3))
              (exhaust_args 3) (first_frame three_up)))
    = Raise (UnboundLocalError "fe_server").
Proof.
  assert (Hacq : acquisition_fails (H := scripted script_no_entry (exhaust_args 3))
                   (exhaust_args 3) (first_frame three_up) crash)
    by (vm_compute; reflexivity).
  split; [exact Hacq|]. split; [vm_compute; reflexivity|].
  destruct (failed_acquisition_is_not_released
              (H := scripted script_no_entry (exhaust_args 3))
              (exhaust_args 3) (first_frame three_up) crash Hacq)
    as (_ & _ & _ & Hexit & Hfault).
  split; [exact Hexit|]. apply Hfault; reflexivity.
Defined.

(** X3 at work: the second constructor call of [script_retry] comes after
    the first session was torn down. *)
Lemma sessions_never_overlap_witness :
  snd (main (H := scripted script_retry (exhaust_args 3))
         (Some (exhaust_args 3)) 2 (sim_start three_up)) =
    (prelude ++
     [EvConstruct (Returns 0%nat); EvEnter 0 (Returns tt);
      EvRunStartup 0 PyNone (Returns (PyDict 5));
      EvRunApp 0 (Raises crash);
      EvExit 0 (Some crash) (Returns false);
      EvLog (LogException crash); EvLog (LogAvailNodes 3)])
    ++ EvConstruct (Returns 1%nat)
    :: [EvEnter 1 (Returns tt);
        EvRunStartup 1 (PyDict 5) (Returns (PyDict 0));
        EvRunApp 1 (Returns (PyDict 0)); EvRunMsgServer 1 (Returns (PyDict 0));
        EvExit 1 None (Returns false); EvLog LogExiting] /\
  call_allowed
    (open_session
       (prelude ++
        [EvConstruct (Returns 0%nat); EvEnter 0 (Returns tt);
         EvRunStartup 0 PyNone (Returns (PyDict 5));
         EvRunApp 0 (Raises crash);
         EvExit 0 (Some crash) (Returns false);
         EvLog (LogException crash); EvLog (LogAvailNodes 3)]))
    (EvConstruct (Returns 1%nat)).
Proof.
  assert (Hrun :
    snd (main (H := scripted script_retry (exhaust_args 3))
           (Some (exhaust_args 3)) 2 (sim_start three_up)) =
      (prelude ++
       [EvConstruct (Returns 0%nat); EvEnter 0 (Returns tt);
        EvRunStartup 0 PyNone (Returns (PyDict 5));
        EvRunApp 0 (Raises crash);
        EvExit 0 (Some crash) (Returns false);
        EvLog (LogException crash); EvLog (LogAvailNodes 3)])
      ++ EvConstruct (Returns 1%nat)
      :: [EvEnter 1 (Returns tt);
          EvRunStartup 1 (PyDict 5) (Returns (PyDict 0));
          EvRunApp 1 (Returns (PyDict 0)); EvRunMsgServer 1 (Returns (PyDict 0));
          EvExit 1 None (Returns false); EvLog LogExiting])
    by (vm_compute; reflexivity).
  split; [exact Hrun|].
  exact (sessions_never_overlap (H := scripted script_retry (exhaust_args 3))
           _ _ _ _ _ _ Hrun).
Defined.

(** X7 at work: sessions whose application fails every time, three healthy
    workers, exhaust mode: after five turns [main] is still looping. *)
Lemma retries_are_unbounded_witness :
  fst (fst (main (H := unending (app_fails true crash) (exhaust_args 3))
              (Some (exhaust_args 3)) 5 (sim_start three_up))) = None.
Proof.
  apply (retries_are_unbounded (H := unending (app_fails true crash) (exhaust_args 3))
           (exhaust_args 3) (sim_start three_up)
           (fun fr => heap (world fr) = heap_of three_up)).
  - reflexivity.
  - intros [done nc fs [n h]] Hheap. cbn in Hheap. subst h.
    exists crash.
    eexists _, _, (scripted_session n (app_fails true crash)), 0%nat.
    split; [reflexivity|]. split; [reflexivity|]. split; [reflexivity|].
    split; [reflexivity|]. split; [reflexivity|]. split; [|reflexivity].
    vm_compute. discriminate.
Defined.

(** X8 at work: the failure of [script_suppressed] is suppressed by
    [__exit__]. *)
Lemma suppressed_failure_counts_as_success_witness :
  In (EvRunApp 0 (Raises crash)) (events_of_with script_suppressed (exhaust_args 3) three_up) /\
  In (EvExit 0 (Some crash) (Returns true))
     (events_of_with script_suppressed (exhaust_args 3) three_up) /\
  fst (fst (main (H := scripted script_suppressed (exhaust_args 3))
              (Some (exhaust_args 3)) 1 (sim_start three_up))) = Some (Return 0).
Proof.
  assert (Hin : In (EvRunApp 0 (Raises crash))
                  (events_of_with script_suppressed (exhaust_args 3) three_up))
    by (vm_compute; do 3 right; left; reflexivity).
  assert (Hexit : In (EvExit 0 (Some crash) (Returns true))
                    (events_of_with script_suppressed (exhaust_args 3) three_up))
    by (vm_compute; do 4 right; left; reflexivity).
  split; [exact Hin|]. split; [exact Hexit|].
  destruct (suppressed_failure_counts_as_success
              (H := scripted script_suppressed (exhaust_args 3))
              (exhaust_args 3) (sim_start three_up) 0 (first_frame three_up) []
              (EvRunApp 0 (Raises crash)) crash 0%nat 0%nat
              (reaches_first _ _) eq_refl Hin eq_refl Hexit) as (Hdone & _).
  exact Hdone.
Defined.

(** X9 at work: the degraded run in threshold mode prints once, at the very
    end. *)
Lemma print_only_before_failure_exit_witness :
  snd (main (H := scripted script_degraded (threshold_args 3))
         (Some (threshold_args 3)) 1 (sim_start three_up)) =
    (prelude ++
     [EvConstruct (Returns 0%nat); EvEnter 0 (Returns tt);
      EvRunStartup 0 PyNone (Returns (PyDict 0));
      EvRunApp 0 (Raises crash);
      EvExit 0 (Some crash) (Returns false);
      EvLog (LogException crash); EvLog (LogAvailNodes 2)])
    ++ EvPrint msg_not_enough_resources :: [] /\
  fst (fst (main (H := scripted script_degraded (threshold_args 3))
              (Some (threshold_args 3)) 1 (sim_start three_up))) = Some (Return 1).
Proof.
  assert (Hrun :
    snd (main (H := scripted script_degraded (threshold_args 3))
           (Some (threshold_args 3)) 1 (sim_start three_up)) =
      (prelude ++
       [EvConstruct (Returns 0%nat); EvEnter 0 (Returns tt);
        EvRunStartup 0 PyNone (Returns (PyDict 0));
        EvRunApp 0 (Raises crash);
        EvExit 0 (Some crash) (Returns false);
        EvLog (LogException crash); EvLog (LogAvailNodes 2)])
      ++ EvPrint msg_not_enough_resources :: [])
    by (vm_compute; reflexivity).
  split; [exact Hrun|].
  destruct (print_only_before_failure_exit
              (H := scripted script_degraded (threshold_args 3))
              _ _ _ _ _ _ Hrun) as (_ & _ & Hfail & _).
  exact Hfail.
Defined.

(** X11 at work: worker 2 of [three_up] goes down, three available nodes
    become two. *)
Lemma lost_worker_lowers_count_witness :
  avail_nodes_of three_up = 3%nat /\
  avail_nodes_of three_up =
    S (avail_nodes_of (<["2"%string := nd (OtherState 0)]> three_up)).
Proof.
  split; [vm_compute; reflexivity|].
  apply (lost_worker_lowers_count three_up "2" (nd ACTIVE) (nd (OtherState 0))).
  - discriminate.
  - vm_compute. reflexivity.
  - left. reflexivity.
  - split; discriminate.
Defined.

(** X13 at work: run as a script on [script_non_resilient], the module
    calls [exit(1)]. *)
Lemma script_exits_with_main_status_witness :
  In (PrExit (Some 1))
     (snd (script_entry (H := scripted script_non_resilient (threshold_args 3))
             1 (sim_start three_up))) /\
  fst (script_entry (H := scripted script_non_resilient (threshold_args 3))
         1 (sim_start three_up)) = Some (ExitCalled (Some 1)).
Proof.
  assert (Hin : In (PrExit (Some 1))
                  (snd (script_entry (H := scripted script_non_resilient (threshold_args 3))
                          1 (sim_start three_up))))
    by (vm_compute; do 14 right; left; reflexivity).
  split; [exact Hin|].
  destruct (script_exits_with_main_status
              (H := scripted script_non_resilient (threshold_args 3))
              1%nat (sim_start three_up) (Some 1) Hin)
    as (code & [= <-] & _ & _ & Hend & _).
  exact Hend.
Defined.
